(** * The simulation orchestrator of ts2-sim-server (simulation/simulation.go)

    A shallow embedding of [Simulation.UnmarshalJSON], [checkTrackItemsLinks],
    the train comparator handed to [sort.Slice], [Initialize], [Start], [run],
    [sendEvent] and [increaseTime], with the properties of the specification
    stated over it.

    Go maps are [gmap]s; the order in which a [range] statement visits a map is
    supplied by the runtime ([GoRuntime]).  Values produced by [encoding/json]
    and the entity methods that live in other files of the package are
    supplied by [Json] and [Entities]. *)

From Stdlib Require Import ZArith Strings.String Strings.Ascii List Lia.
From stdpp Require Import gmap strings list fin_maps.

Local Open Scope Z_scope.

(** ** Basic data *)

(** [json.RawMessage] and Go [string]s are byte strings. *)
Abbreviation RawMessage := string (only parsing).

(** The double quote character (byte 34), the cutset handed to [strings.Trim]. *)
Definition dq : ascii := "034"%char.

(** The text of a JSON string without escapes: [s] between double quotes, as
    the raw literals of the type switch are written. *)
Definition quoted (s : string) : string :=
  String dq (s ++ String dq EmptyString).

(** The address of the [*Simulation] receiver, as stored in back-references. *)
Definition SimRef := nat.

(** [time.Duration]: a signed 64-bit count of nanoseconds. *)
Definition Duration := Z.
Definition minDuration : Duration := - 2 ^ 63.
Definition maxDuration : Duration := 2 ^ 63 - 1.
Definition Millisecond : Duration := 1000000.

(** [const timeStep = 500 * time.Millisecond] *)
Definition timeStep : Duration := 500 * Millisecond.

(** Modelled from the spec: the type [Time] of the package is declared in
    another file; the current time and the scheduled departure times are
    instants, counted here in nanoseconds. *)
Definition Time := Z.

(** Modelled from the spec: [Time.Add] advances an instant by a duration. *)
Definition Time_Add (t : Time) (d : Duration) : Time := t + d.

(** Modelled from the spec: [Time.Sub] is the duration between two instants;
    as [time.Time.Sub] does, it saturates to the range of [Duration]. *)
Definition Time_Sub (t u : Time) : Duration :=
  if t - u <? minDuration then minDuration
  else if maxDuration <? t - u then maxDuration
  else t - u.

(** ** strconv.Atoi and strings.Trim *)

Inductive NumError := ErrSyntax | ErrRange.

Definition maxUint64 : Z := 2 ^ 64 - 1.

Definition digitOf (c : ascii) : option Z :=
  let n := Z.of_N (N_of_ascii c) in
  if (48 <=? n) && (n <=? 57) then Some (n - 48) else None.

(** The digit loop of [strconv.ParseUint] in base 10 on 64 bits: a byte that
    is no digit is a syntax error, a value beyond [maxUint64] a range error,
    whichever comes first. *)
Fixpoint parseDigits (s : string) (n : Z) : NumError + Z :=
  match s with
  | EmptyString => inr n
  | String c r =>
      match digitOf c with
      | None => inl ErrSyntax
      | Some d =>
          if maxUint64 <? 10 * n + d then inl ErrRange
          else parseDigits r (10 * n + d)
      end
  end.

(** [strconv.Atoi] with a 64-bit [int]: an optional sign, then at least one
    decimal digit, the value within the range of [int]. *)
Definition Atoi (s : string) : NumError + Z :=
  match s with
  | EmptyString => inl ErrSyntax
  | String c r =>
      let neg := Ascii.eqb c "-" in
      let body := if neg || Ascii.eqb c "+" then r else s in
      match body with
      | EmptyString => inl ErrSyntax
      | _ =>
          match parseDigits body 0 with
          | inl e => inl e
          | inr un =>
              if neg then (if 2 ^ 63 <? un then inl ErrRange else inr (- un))
              else (if 2 ^ 63 <=? un then inl ErrRange else inr un)
          end
      end
  end.

Fixpoint trimLeft (c : ascii) (s : string) : string :=
  match s with
  | EmptyString => EmptyString
  | String a r => if Ascii.eqb a c then trimLeft c r else s
  end.

Fixpoint trimRight (c : ascii) (s : string) : string :=
  match s with
  | EmptyString => EmptyString
  | String a r =>
      match trimRight c r with
      | EmptyString => if Ascii.eqb a c then EmptyString else String a EmptyString
      | r' => String a r'
      end
  end.

(** [strings.Trim(s, cutset)] for a cutset of one byte. *)
Definition Trim (s : string) (c : ascii) : string := trimRight c (trimLeft c s).

(** ** Entities of the package *)

(** The kind tags returned by [TrackItem.Type()]. *)
Inductive trackItemType :=
  | place | platformItem | textItem | pointsItem
  | lineItem | invisibleLinkItem | signalItem | endItem.

#[global] Instance trackItemType_eq_dec : EqDecision trackItemType.
Proof. solve_decision. Defined.

(** The types declared in other files of the package that this file only
    passes around: the coordinates of a connection point, the signal library,
    the options other than the current time, and a route. *)
Class Entities := {
  Point : Type;
  SignalLibrary : Type;
  OptionsRest : Type;
  Route : Type;
}.

(** [time.Ticker], as far as [Start] and [run] use it. *)
Record Ticker := {
  tickerPeriod : Duration;
  tickerRunning : bool;
}.

Definition NewTicker (d : Duration) : Ticker :=
  {| tickerPeriod := d; tickerRunning := true |}.

Definition Ticker_Stop (t : Ticker) : Ticker :=
  {| tickerPeriod := tickerPeriod t; tickerRunning := false |}.

(** [time.NewTicker] panics ([None]) unless the period is positive. *)
Definition NewTicker_checked (d : Duration) : option Ticker :=
  if d <=? 0 then None else Some (NewTicker d).

(** A channel created by [make]; only its being allocated matters here. *)
Inductive Chan := mkChan.

Inductive EventName := ClockEvent.

(** [Event{Name, Object}]; the object of a clock event is a time. *)
Record Event := {
  Name : EventName;
  Object : Time;
}.

Section Entities.
Context `{Ent : Entities}.

(** Modelled from the spec: the [TrackItem] interface and the seven structs
    behind it are declared in another file.  A track item is what the
    orchestrator sees of it through the interface: its kind, its
    back-reference and id, its three connection points, and the results of
    the link accessors ([None] is Go's [nil]; a resolved link carries the id
    of the neighbour).  [ReverseItem] and [Reverse] are read on points items
    only. *)
Record TrackItem := {
  Type_ : trackItemType;
  tiSimulation : option SimRef;
  ID : Z;
  Origin : Point;
  End_ : Point;
  Reverse : Point;
  PreviousItem : option Z;
  NextItem : option Z;
  ReverseItem : option Z;
}.

Definition TrackItem_setSimulation (sim : SimRef) (ti : TrackItem) : TrackItem :=
  {| Type_ := Type_ ti; tiSimulation := Some sim; ID := ID ti;
     Origin := Origin ti; End_ := End_ ti; Reverse := Reverse ti;
     PreviousItem := PreviousItem ti; NextItem := NextItem ti;
     ReverseItem := ReverseItem ti |}.

Definition TrackItem_setID (id : Z) (ti : TrackItem) : TrackItem :=
  {| Type_ := Type_ ti; tiSimulation := tiSimulation ti; ID := id;
     Origin := Origin ti; End_ := End_ ti; Reverse := Reverse ti;
     PreviousItem := PreviousItem ti; NextItem := NextItem ti;
     ReverseItem := ReverseItem ti |}.

(** The variable declared in a switch arm ([var ti LineItem], ...) fixes the
    kind of the item, whatever the document holds. *)
Definition TrackItem_ofShape (k : trackItemType) (ti : TrackItem) : TrackItem :=
  {| Type_ := k; tiSimulation := tiSimulation ti; ID := ID ti;
     Origin := Origin ti; End_ := End_ ti; Reverse := Reverse ti;
     PreviousItem := PreviousItem ti; NextItem := NextItem ti;
     ReverseItem := ReverseItem ti |}.

(** Modelled from the spec: a place is keyed by its place code; the name
    stands for its other fields. *)
Record Place := {
  PlaceCode : string;
  PlaceName : string;
}.

(** Modelled from the spec: a service holds an ordered list of scheduled
    line stops, each with a scheduled departure time, and a
    back-reference. *)
Record ServiceLine := {
  ScheduledDepartureTime : Time;
}.

Record Service := {
  svcSimulation : option SimRef;
  Lines : list ServiceLine;
}.

Definition Service_setSimulation (sim : SimRef) (s : Service) : Service :=
  {| svcSimulation := Some sim; Lines := Lines s |}.

(** Modelled from the spec: a train type is static data with a
    back-reference; the description stands for its other fields. *)
Record TrainType := {
  ttSimulation : option SimRef;
  ttDescription : string;
}.

Definition TrainType_setSimulation (sim : SimRef) (tt : TrainType) : TrainType :=
  {| ttSimulation := Some sim; ttDescription := ttDescription tt |}.

(** Modelled from the spec: a train references its service by code and
    holds a back-reference. *)
Record Train := {
  trainSimulation : option SimRef;
  ServiceCode : string;
}.

Definition Train_setSimulation (sim : SimRef) (t : Train) : Train :=
  {| trainSimulation := Some sim; ServiceCode := ServiceCode t |}.

(** Modelled from the spec: the message log is an append-only list of
    notices tagged with their origin, with a back-reference. *)
Inductive msgType := softwareMsg.

Record MessageLogger := {
  mlSimulation : option SimRef;
  Messages : list (string * msgType);
}.

Definition MessageLogger_setSimulation (sim : SimRef) (ml : MessageLogger)
  : MessageLogger :=
  {| mlSimulation := Some sim; Messages := Messages ml |}.

Definition MessageLogger_addMessage (msg : string) (ty : msgType)
  (ml : MessageLogger) : MessageLogger :=
  {| mlSimulation := mlSimulation ml; Messages := Messages ml ++ [(msg, ty)] |}.

(** Modelled from the spec: the options hold the current time of the
    simulation among other settings. *)
Record options := {
  CurrentTime : Time;
  optionsRest : OptionsRest;
}.

(** ** Errors returned by the decode entry point *)

Inductive error :=
  | ErrDecodeSimulation (err : string)
      (* unable to decode simulation JSON: %s *)
  | ErrReadTrackItem (tiString : RawMessage) (err : string)
      (* unable to read TrackItem: %s. %s *)
  | ErrDecodeItem (tiType : string) (tiString : RawMessage) (err : string)
      (* unable to decode %s: %s. %s *)
  | ErrConvert (errconv : NumError)
      (* unable to convert %s *)
  | ErrDecodePlace (tiString : RawMessage) (err : string)
      (* unable to decode Place: %s. %s *)
  | ErrUnknownType (raw : RawMessage)
      (* unknown TrackItem type: %s *)
  | ItemNotLinkedAtError (item : TrackItem) (pt : Point)
  | ErrRouteNum (num : string)
      (* routeNum : %s is invalid *).

(** [type Simulation struct] *)
Record Simulation := {
  SignalLib : SignalLibrary;
  TrackItems : gmap Z TrackItem;
  Places : gmap string Place;
  Options : options;
  Routes : gmap Z Route;
  TrainTypes : gmap string TrainType;
  Services : gmap string Service;
  Trains : list Train;
  MessageLogger_ : option MessageLogger;
  EventChan : option Chan;
  clockTicker : option Ticker;
  stopChan : option Chan;
}.

(** Assignments to one field of the simulation. *)
Definition set_SignalLib (v : SignalLibrary) (s : Simulation) : Simulation :=
  {| SignalLib := v; TrackItems := TrackItems s; Places := Places s;
     Options := Options s; Routes := Routes s; TrainTypes := TrainTypes s;
     Services := Services s; Trains := Trains s;
     MessageLogger_ := MessageLogger_ s; EventChan := EventChan s;
     clockTicker := clockTicker s; stopChan := stopChan s |}.

Definition set_TrackItems (v : gmap Z TrackItem) (s : Simulation) : Simulation :=
  {| SignalLib := SignalLib s; TrackItems := v; Places := Places s;
     Options := Options s; Routes := Routes s; TrainTypes := TrainTypes s;
     Services := Services s; Trains := Trains s;
     MessageLogger_ := MessageLogger_ s; EventChan := EventChan s;
     clockTicker := clockTicker s; stopChan := stopChan s |}.

Definition set_Places (v : gmap string Place) (s : Simulation) : Simulation :=
  {| SignalLib := SignalLib s; TrackItems := TrackItems s; Places := v;
     Options := Options s; Routes := Routes s; TrainTypes := TrainTypes s;
     Services := Services s; Trains := Trains s;
     MessageLogger_ := MessageLogger_ s; EventChan := EventChan s;
     clockTicker := clockTicker s; stopChan := stopChan s |}.

Definition set_Options (v : options) (s : Simulation) : Simulation :=
  {| SignalLib := SignalLib s; TrackItems := TrackItems s; Places := Places s;
     Options := v; Routes := Routes s; TrainTypes := TrainTypes s;
     Services := Services s; Trains := Trains s;
     MessageLogger_ := MessageLogger_ s; EventChan := EventChan s;
     clockTicker := clockTicker s; stopChan := stopChan s |}.

Definition set_Routes (v : gmap Z Route) (s : Simulation) : Simulation :=
  {| SignalLib := SignalLib s; TrackItems := TrackItems s; Places := Places s;
     Options := Options s; Routes := v; TrainTypes := TrainTypes s;
     Services := Services s; Trains := Trains s;
     MessageLogger_ := MessageLogger_ s; EventChan := EventChan s;
     clockTicker := clockTicker s; stopChan := stopChan s |}.

Definition set_TrainTypes (v : gmap string TrainType) (s : Simulation)
  : Simulation :=
  {| SignalLib := SignalLib s; TrackItems := TrackItems s; Places := Places s;
     Options := Options s; Routes := Routes s; TrainTypes := v;
     Services := Services s; Trains := Trains s;
     MessageLogger_ := MessageLogger_ s; EventChan := EventChan s;
     clockTicker := clockTicker s; stopChan := stopChan s |}.

Definition set_Services (v : gmap string Service) (s : Simulation) : Simulation :=
  {| SignalLib := SignalLib s; TrackItems := TrackItems s; Places := Places s;
     Options := Options s; Routes := Routes s; TrainTypes := TrainTypes s;
     Services := v; Trains := Trains s;
     MessageLogger_ := MessageLogger_ s; EventChan := EventChan s;
     clockTicker := clockTicker s; stopChan := stopChan s |}.

Definition set_Trains (v : list Train) (s : Simulation) : Simulation :=
  {| SignalLib := SignalLib s; TrackItems := TrackItems s; Places := Places s;
     Options := Options s; Routes := Routes s; TrainTypes := TrainTypes s;
     Services := Services s; Trains := v;
     MessageLogger_ := MessageLogger_ s; EventChan := EventChan s;
     clockTicker := clockTicker s; stopChan := stopChan s |}.

Definition set_MessageLogger (v : option MessageLogger) (s : Simulation)
  : Simulation :=
  {| SignalLib := SignalLib s; TrackItems := TrackItems s; Places := Places s;
     Options := Options s; Routes := Routes s; TrainTypes := TrainTypes s;
     Services := Services s; Trains := Trains s;
     MessageLogger_ := v; EventChan := EventChan s;
     clockTicker := clockTicker s; stopChan := stopChan s |}.

Definition set_EventChan (v : option Chan) (s : Simulation) : Simulation :=
  {| SignalLib := SignalLib s; TrackItems := TrackItems s; Places := Places s;
     Options := Options s; Routes := Routes s; TrainTypes := TrainTypes s;
     Services := Services s; Trains := Trains s;
     MessageLogger_ := MessageLogger_ s; EventChan := v;
     clockTicker := clockTicker s; stopChan := stopChan s |}.

Definition set_clockTicker (v : option Ticker) (s : Simulation) : Simulation :=
  {| SignalLib := SignalLib s; TrackItems := TrackItems s; Places := Places s;
     Options := Options s; Routes := Routes s; TrainTypes := TrainTypes s;
     Services := Services s; Trains := Trains s;
     MessageLogger_ := MessageLogger_ s; EventChan := EventChan s;
     clockTicker := v; stopChan := stopChan s |}.

Definition set_stopChan (v : option Chan) (s : Simulation) : Simulation :=
  {| SignalLib := SignalLib s; TrackItems := TrackItems s; Places := Places s;
     Options := Options s; Routes := Routes s; TrainTypes := TrainTypes s;
     Services := Services s; Trains := Trains s;
     MessageLogger_ := MessageLogger_ s; EventChan := EventChan s;
     clockTicker := clockTicker s; stopChan := v |}.

(** The local [auxSim] of [UnmarshalJSON]: the document after the first
    [json.Unmarshal].  Pointers held by the maps and the slice are taken to
    be non-nil. *)
Record auxSim := {
  raw_TrackItems : gmap string RawMessage;
  raw_Options : options;
  raw_SignalLib : SignalLibrary;
  raw_Routes : gmap string Route;
  raw_TrainTypes : gmap string TrainType;
  raw_Services : gmap string Service;
  raw_Trains : list Train;
  raw_MessageLogger : option MessageLogger;
}.

End Entities.

(** ** The environment of the orchestrator *)

(** The two methods of a route, defined in another file of the package.  A
    route reaches the simulation through its back-reference, so [initialize]
    reads the simulation as it is when the call is made. *)
Class RouteMethods `{Entities} := {
  Route_setSimulation : SimRef -> Route -> Route;
  Route_initialize : Simulation -> Route -> Route;
}.

(** The results of [json.Unmarshal] at the four targets [UnmarshalJSON]
    decodes into; [inl] carries the text of the error.  The seven track-item
    structs are declared in another file: [json_TrackItem k] decodes into the
    struct of kind [k]. *)
Class Json `{Entities} := {
  json_auxSim : RawMessage -> string + auxSim;
  json_auxItem : RawMessage -> string + gmap string RawMessage;
  json_TrackItem : trackItemType -> RawMessage -> string + TrackItem;
  json_Place : RawMessage -> string + Place;
}.

(** What the Go runtime and [sort] decide: the order in which a [range]
    statement visits the entries of a map (some order of its entries), and
    the result of [sort.Slice] for a comparator that may panic ([None]). *)
Class GoRuntime := {
  range : forall {K} `{Countable K} {A}, gmap K A -> list (K * A);
  range_perm : forall K `{Countable K} A (m : gmap K A),
    range m ≡ₚ map_to_list m;
  sort_Slice : forall {A}, (A -> A -> option bool) -> list A -> option (list A);
}.

(** ** The orchestrator *)

Section Orchestrator.
Context `{Ent : Entities} `{!RouteMethods} `{!Json} `{!GoRuntime}.

(** How a call ends: it returns (with an error or with [nil]) or it panics. *)
Inductive outcome :=
  | Returned (err : option error)
  | Panicked.

(** A [for ... range] loop whose body may return an error from the enclosing
    function: the loop stops at the first error, with the state as the body
    left it. *)
Fixpoint forRange {S X : Type} (body : S -> X -> S * option error)
  (st : S) (l : list X) : S * option error :=
  match l with
  | [] => (st, None)
  | x :: r =>
      match body st x with
      | (st', Some e) => (st', Some e)
      | (st', None) => forRange body st' r
      end
  end.

(** *** checkTrackItemsLinks *)

(** The [endItem] arm, also reached by fall-through. *)
Definition checkPrevious (ti : TrackItem) : option error :=
  match PreviousItem ti with
  | None => Some (ItemNotLinkedAtError ti (Origin ti))
  | Some _ => None
  end.

(** The [lineItem, invisibleLinkItem, signalItem] arm. *)
Definition checkNext (ti : TrackItem) : option error :=
  match NextItem ti with
  | None => Some (ItemNotLinkedAtError ti (End_ ti))
  | Some _ => checkPrevious ti
  end.

(** The [pointsItem] arm. *)
Definition checkReverse (ti : TrackItem) : option error :=
  match ReverseItem ti with
  | None => Some (ItemNotLinkedAtError ti (Reverse ti))
  | Some _ => checkNext ti
  end.

(** The switch of the loop body. *)
Definition checkItem (ti : TrackItem) : option error :=
  match Type_ ti with
  | place | platformItem | textItem => None
  | pointsItem => checkReverse ti
  | lineItem | invisibleLinkItem | signalItem => checkNext ti
  | endItem => checkPrevious ti
  end.

(** The loop, over the items in the order they are visited. *)
Fixpoint checkLinksLoop (l : list TrackItem) : option error :=
  match l with
  | [] => None
  | ti :: r =>
      match checkItem ti with
      | Some e => Some e
      | None => checkLinksLoop r
      end
  end.

Definition checkTrackItemsLinks (sim : Simulation) : option error :=
  checkLinksLoop ((range (TrackItems sim)).*2).

(** *** UnmarshalJSON: the track items *)

(** The closure [unmarshalItem], called on a fresh variable of kind [k]. *)
Definition unmarshalItem (self : SimRef) (tiId : string) (tiString : RawMessage)
  (tiType : string) (k : trackItemType) (sim : Simulation)
  : Simulation * option error :=
  match json_TrackItem k tiString with
  | inl err => (sim, Some (ErrDecodeItem tiType tiString err))
  | inr decoded =>
      match Atoi (Trim tiId dq) with
      | inl errconv => (sim, Some (ErrConvert errconv))
      | inr id =>
          let ti := TrackItem_setID id
                      (TrackItem_setSimulation self (TrackItem_ofShape k decoded)) in
          (set_TrackItems (<[id := ti]> (TrackItems sim)) sim, None)
      end
  end.

(** [string(rawItem[__type__])]: the raw text of the field, empty when the
    map has no such key. *)
Definition tiTypeOf (rawItem : gmap string RawMessage) : string :=
  default EmptyString (rawItem !! "__type__"%string).

(** The body of the loop over [rawSim.TrackItems].  In the seven track-item
    arms the value returned by [unmarshalItem] is not used. *)
Definition decodeTrackItem (self : SimRef) (sim : Simulation)
  (entry : string * RawMessage) : Simulation * option error :=
  let '(tiId, tiString) := entry in
  match json_auxItem tiString with
  | inl err => (sim, Some (ErrReadTrackItem tiString err))
  | inr rawItem =>
      let tiType := tiTypeOf rawItem in
      let item k := (fst (unmarshalItem self tiId tiString tiType k sim), None) in
      if String.eqb tiType (quoted "LineItem") then item lineItem
      else if String.eqb tiType (quoted "InvisibleLinkItem") then item invisibleLinkItem
      else if String.eqb tiType (quoted "EndItem") then item endItem
      else if String.eqb tiType (quoted "PlatformItem") then item platformItem
      else if String.eqb tiType (quoted "TextItem") then item textItem
      else if String.eqb tiType (quoted "PointsItem") then item pointsItem
      else if String.eqb tiType (quoted "SignalItem") then item signalItem
      else if String.eqb tiType (quoted "Place") then
        match json_Place tiString with
        | inl err => (sim, Some (ErrDecodePlace tiString err))
        | inr pl => (set_Places (<[PlaceCode pl := pl]> (Places sim)) sim, None)
        end
      else (sim, Some (ErrUnknownType tiType))
  end.

(** Lines 77 to 132: the two maps are made, then the loop runs over the
    entries of [rawSim.TrackItems]. *)
Definition decodeTrackItems (self : SimRef) (sim : Simulation)
  (rawSim : auxSim) : Simulation * option error :=
  let sim := set_TrackItems ∅ sim in
  let sim := set_Places ∅ sim in
  forRange (decodeTrackItem self) sim (range (raw_TrackItems rawSim)).

(** *** UnmarshalJSON: the routes *)

(** The body of the loop over [rawSim.Routes].  The state is the simulation
    and the route objects the map points to. *)
Definition decodeRoute (self : SimRef) (st : Simulation * gmap string Route)
  (entry : string * Route) : (Simulation * gmap string Route) * option error :=
  let '(sim, objs) := st in
  let '(num, route) := entry in
  let route1 := Route_setSimulation self route in
  let route2 := Route_initialize sim route1 in
  let objs' := <[num := route2]> objs in
  match Atoi num with
  | inl _ => ((sim, objs'), Some (ErrRouteNum num))
  | inr routeNum =>
      ((set_Routes (<[routeNum := route2]> (Routes sim)) sim, objs'), None)
  end.

(** Lines 139 to 148: the map is made, then the loop runs over the entries
    of [rawSim.Routes]. *)
Definition decodeRoutes (self : SimRef) (sim : Simulation) (rawSim : auxSim)
  : (Simulation * gmap string Route) * option error :=
  let sim := set_Routes ∅ sim in
  forRange (decodeRoute self) (sim, raw_Routes rawSim)
    (range (raw_Routes rawSim)).

(** *** UnmarshalJSON: the order of the trains *)

(** Modelled from the spec: [Train.Service()] is declared in another file; a
    train references its owning service by code, so the service is the entry
    of the service mapping at the service code of the train, [nil] when there
    is none. *)
Definition Train_Service (sim : Simulation) (t : Train) : option Service :=
  Services sim !! ServiceCode t.

(** The function handed to [sort.Slice], on the two trains at the indices it
    is called with.  Both services are dereferenced on every path; [None] is
    the panic of a [nil] one. *)
Definition trainLess (sim : Simulation) (a b : Train) : option bool :=
  match Train_Service sim a, Train_Service sim b with
  | Some sa, Some sb =>
      Some
        (if (length (Lines sa) =? 0)%nat && (length (Lines sb) =? 0)%nat
         then String.ltb (ServiceCode a) (ServiceCode b)
         else if (length (Lines sa) =? 0)%nat then false
         else if (length (Lines sb) =? 0)%nat then true
         else match Lines sa, Lines sb with
              | la :: _, lb :: _ =>
                  Time_Sub (ScheduledDepartureTime la) (ScheduledDepartureTime lb) <? 0
              | _, _ => false
              end)
  | _, _ => None
  end.

(** *** UnmarshalJSON *)

(** What a call of [UnmarshalJSON] leaves behind: the simulation it wrote to,
    the route objects of the decoded document, and how the call ended. *)
Record Decoded := {
  decSim : Simulation;
  decRoutes : gmap string Route;
  decOutcome : outcome;
}.

Definition UnmarshalJSON (self : SimRef) (sim : Simulation) (data : RawMessage)
  : Decoded :=
  match json_auxSim data with
  | inl err =>
      {| decSim := sim; decRoutes := ∅;
         decOutcome := Returned (Some (ErrDecodeSimulation err)) |}
  | inr rawSim =>
      match decodeTrackItems self sim rawSim with
      | (sim, Some e) =>
          {| decSim := sim; decRoutes := raw_Routes rawSim;
             decOutcome := Returned (Some e) |}
      | (sim, None) =>
          match checkTrackItemsLinks sim with
          | Some e =>
              {| decSim := sim; decRoutes := raw_Routes rawSim;
                 decOutcome := Returned (Some e) |}
          | None =>
              let sim := set_Options (raw_Options rawSim) sim in
              let sim := set_SignalLib (raw_SignalLib rawSim) sim in
              match decodeRoutes self sim rawSim with
              | ((sim, objs), Some e) =>
                  {| decSim := sim; decRoutes := objs;
                     decOutcome := Returned (Some e) |}
              | ((sim, objs), None) =>
                  let sim := set_TrainTypes
                      (TrainType_setSimulation self <$> raw_TrainTypes rawSim) sim in
                  let sim := set_Services
                      (Service_setSimulation self <$> raw_Services rawSim) sim in
                  let sim := set_Trains
                      (Train_setSimulation self <$> raw_Trains rawSim) sim in
                  match sort_Slice (trainLess sim) (Trains sim) with
                  | None =>
                      {| decSim := sim; decRoutes := objs; decOutcome := Panicked |}
                  | Some sorted =>
                      let sim := set_Trains sorted sim in
                      let sim := set_MessageLogger (raw_MessageLogger rawSim) sim in
                      match MessageLogger_ sim with
                      | None =>
                          {| decSim := sim; decRoutes := objs;
                             decOutcome := Panicked |}
                      | Some ml =>
                          {| decSim := set_MessageLogger
                               (Some (MessageLogger_setSimulation self ml)) sim;
                             decRoutes := objs;
                             decOutcome := Returned None |}
                      end
                  end
              end
          end
      end
  end.

(** ** The clock *)

(** The state the lifecycle operations act on: the simulation, the package
    variable [logger] ([None] while it is the nil interface, otherwise the
    lines written through it), the number of [run] loops launched by [go],
    and the events handed to the sending tasks spawned by [sendEvent], oldest
    first. *)
Record World := {
  wSim : Simulation;
  logger : option (list string);
  loops : nat;
  sending : list Event;
}.

(** How a call without result ends. *)
Inductive callEnd := Normal | Panic.

(** How [run] stands once the given signals are consumed: it returned, it
    waits in its [select], or it panicked. *)
Inductive runEnd := LoopReturned | LoopWaiting | LoopPanicked.

(** [InitializeLogger]: the package variable holds a new child logger. *)
Definition InitializeLogger (w : World) : World :=
  {| wSim := wSim w; logger := Some []; loops := loops w; sending := sending w |}.

(** [logger.Info(msg)]: a call through the nil interface panics. *)
Definition logger_Info (msg : string) (w : World) : World * callEnd :=
  match logger w with
  | None => (w, Panic)
  | Some lines =>
      ({| wSim := wSim w; logger := Some (lines ++ [msg]);
          loops := loops w; sending := sending w |}, Normal)
  end.

Definition withSim (sim : Simulation) (w : World) : World :=
  {| wSim := sim; logger := logger w; loops := loops w; sending := sending w |}.

(** [Initialize]; the message logger is dereferenced by [addMessage]. *)
Definition Initialize (sim : Simulation) : Simulation * outcome :=
  match MessageLogger_ sim with
  | None => (sim, Panicked)
  | Some ml =>
      let sim := set_MessageLogger
        (Some (MessageLogger_addMessage "Simulation initializing" softwareMsg ml))
        sim in
      let sim := set_EventChan (Some mkChan) sim in
      let sim := set_stopChan (Some mkChan) sim in
      (sim, Returned None)
  end.

Definition isNil {A} (o : option A) : bool :=
  match o with None => true | Some _ => false end.

(** [Start] *)
Definition Start (w : World) : World * callEnd :=
  if isNil (stopChan (wSim w)) || isNil (EventChan (wSim w)) then (w, Panic)
  else
    match NewTicker_checked timeStep with
    | None => (w, Panic)
    | Some t =>
        let w := withSim (set_clockTicker (Some t) (wSim w)) w in
        let w := {| wSim := wSim w; logger := logger w;
                    loops := S (loops w); sending := sending w |} in
        logger_Info "Simulation started" w
    end.

(** [increaseTime]; the lock held around the assignment does not show in a
    sequential run. *)
Definition increaseTime (step : Duration) (sim : Simulation) : Simulation :=
  set_Options
    {| CurrentTime := Time_Add (CurrentTime (Options sim)) step;
       optionsRest := optionsRest (Options sim) |} sim.

(** [sendEvent]: a task is spawned that holds the event until the event
    channel takes it. *)
Definition sendEvent (evt : Event) (w : World) : World :=
  {| wSim := wSim w; logger := logger w; loops := loops w;
     sending := sending w ++ [evt] |}.

(** The two cases of the [select] of [run]: a value arrives on the stop
    channel (sent by [Pause]), or the ticker fires. *)
Inductive selected := stopReceived | tickReceived.

(** The body of the [tickReceived] case. *)
Definition onTick (w : World) : World :=
  let w := withSim (increaseTime timeStep (wSim w)) w in
  sendEvent {| Name := ClockEvent; Object := CurrentTime (Options (wSim w)) |} w.

(** [run], driven by the cases its [select] takes, in order.  Entering the
    [select] reads the channel of the ticker, which panics for a nil
    ticker.  This is the loop on its own: no other call writes to the
    simulation between the receipt of a stop and the return of the loop. *)
Fixpoint run (sigs : list selected) (w : World) : World * runEnd :=
  match clockTicker (wSim w) with
  | None => (w, LoopPanicked)
  | Some t =>
      match sigs with
      | [] => (w, LoopWaiting)
      | stopReceived :: _ =>
          let w := withSim (set_clockTicker (Some (Ticker_Stop t)) (wSim w)) w in
          match logger_Info "Simulation paused" w with
          | (w, Panic) => (w, LoopPanicked)
          | (w, Normal) => (w, LoopReturned)
          end
      | tickReceived :: rest => run rest (onTick w)
      end
  end.

End Orchestrator.

(** ** The properties the specification words *)

(** The lexicographic order of byte strings: a proper prefix comes first;
    otherwise the first byte that differs decides. *)
Inductive lexLt : string -> string -> Prop :=
  | lexLt_prefix c s : lexLt EmptyString (String c s)
  | lexLt_byte c1 c2 s1 s2 :
      (N_of_ascii c1 < N_of_ascii c2)%N -> lexLt (String c1 s1) (String c2 s2)
  | lexLt_tail c s1 s2 : lexLt s1 s2 -> lexLt (String c s1) (String c s2).

(** The seven track-item shapes, by the raw text of their discriminator, and
    the eight recognized discriminators. *)
Definition trackItemShapes : list (string * trackItemType) :=
  [(quoted "LineItem", lineItem);
   (quoted "InvisibleLinkItem", invisibleLinkItem);
   (quoted "EndItem", endItem);
   (quoted "PlatformItem", platformItem);
   (quoted "TextItem", textItem);
   (quoted "PointsItem", pointsItem);
   (quoted "SignalItem", signalItem)].

Definition recognizedTypes : list string :=
  trackItemShapes.*1 ++ [quoted "Place"].

Section SpecWords.
Context `{Ent : Entities}.

(** The links a kind requires, after section 4.1 of the specification:
    points require the reverse link; points, lines, invisible links and
    signals the next link; every kind but place, platform and text the
    previous link. *)
Definition needsReverse (k : trackItemType) : bool :=
  match k with pointsItem => true | _ => false end.

Definition needsNext (k : trackItemType) : bool :=
  match k with
  | pointsItem | lineItem | invisibleLinkItem | signalItem => true
  | _ => false
  end.

Definition needsPrevious (k : trackItemType) : bool :=
  match k with
  | place | platformItem | textItem => false
  | _ => true
  end.

(** The per-kind link rule. *)
Definition linkRule (ti : TrackItem) : Prop :=
  (needsReverse (Type_ ti) = true -> is_Some (ReverseItem ti)) /\
  (needsNext (Type_ ti) = true -> is_Some (NextItem ti)) /\
  (needsPrevious (Type_ ti) = true -> is_Some (PreviousItem ti)).

(** The first unresolved connection point of an item among those its kind
    requires, in the order reverse, end, origin. *)
Definition firstUnresolved (ti : TrackItem) : option Point :=
  if needsReverse (Type_ ti) && isNil (ReverseItem ti) then Some (Reverse ti)
  else if needsNext (Type_ ti) && isNil (NextItem ti) then Some (End_ ti)
  else if needsPrevious (Type_ ti) && isNil (PreviousItem ti) then Some (Origin ti)
  else None.

End SpecWords.

Section Provenance.
Context `{Ent : Entities} `{!Json}.

(** Where the entries of the two mappings come from. *)
Definition itemsFrom (self : SimRef) (m : gmap string RawMessage)
  (sim : Simulation) : Prop :=
  forall id ti, TrackItems sim !! id = Some ti ->
    exists key raw rawItem k decoded,
      m !! key = Some raw /\ json_auxItem raw = inr rawItem /\
      (tiTypeOf rawItem, k) ∈ trackItemShapes /\
      json_TrackItem k raw = inr decoded /\
      Atoi (Trim key dq) = inr id /\
      ti = TrackItem_setID id
             (TrackItem_setSimulation self (TrackItem_ofShape k decoded)).

Definition placesFrom (m : gmap string RawMessage) (sim : Simulation) : Prop :=
  forall code pl, Places sim !! code = Some pl ->
    PlaceCode pl = code /\
    exists key raw rawItem,
      m !! key = Some raw /\ json_auxItem raw = inr rawItem /\
      tiTypeOf rawItem = quoted "Place" /\ json_Place raw = inr pl.

End Provenance.

(** ** A small instance, to run the orchestrator on documents *)

(** Points are pairs of integers, the signal library and the other options
    are empty, and a route records its back-reference, the number of track
    items the simulation held when it was initialized, and whether it was. *)
Record demoRoute := {
  drSimulation : option SimRef;
  drItemsSeen : nat;
  drInitialized : bool;
}.

Definition demoEntities : Entities :=
  {| Point := Z * Z; SignalLibrary := unit; OptionsRest := unit;
     Route := demoRoute |}.

Definition demoRouteMethods : @RouteMethods demoEntities :=
  {| Route_setSimulation := fun (self : SimRef) (r : @Route demoEntities) =>
       {| drSimulation := Some self; drItemsSeen := drItemsSeen r;
          drInitialized := drInitialized r |} : @Route demoEntities;
     Route_initialize := fun (sim : @Simulation demoEntities)
                             (r : @Route demoEntities) =>
       {| drSimulation := drSimulation r; drItemsSeen := size (TrackItems sim);
          drInitialized := true |} : @Route demoEntities |}.

(** Insertion sort with a comparator that may panic. *)
Fixpoint insertBy {A} (less : A -> A -> option bool) (x : A) (l : list A)
  : option (list A) :=
  match l with
  | [] => Some [x]
  | y :: r =>
      match less x y with
      | None => None
      | Some true => Some (x :: y :: r)
      | Some false =>
          match insertBy less x r with
          | None => None
          | Some r' => Some (y :: r')
          end
      end
  end.

Fixpoint sortBy {A} (less : A -> A -> option bool) (l : list A)
  : option (list A) :=
  match l with
  | [] => Some []
  | x :: r =>
      match sortBy less r with
      | None => None
      | Some r' => insertBy less x r'
      end
  end.

(** A runtime that visits maps in the order of [map_to_list]. *)
Definition demoRuntime : GoRuntime :=
  {| range := fun K _ _ A (m : gmap K A) => map_to_list m;
     range_perm := fun K _ _ A (m : gmap K A) => reflexivity (map_to_list m);
     sort_Slice := fun A => @sortBy A |}.

(** JSON texts. *)
Definition jsonField (k : string) (v : string) : string :=
  (quoted k ++ ":" ++ v)%string.

Fixpoint jsonJoin (l : list string) : string :=
  match l with
  | [] => EmptyString
  | [x] => x
  | x :: r => (x ++ "," ++ jsonJoin r)%string
  end.

Definition jsonObject (fields : list string) : string :=
  ("{" ++ jsonJoin fields ++ "}")%string.

(** Track-item entries. *)
Definition textItemJson : string :=
  jsonObject [jsonField "__type__" (quoted "TextItem")].

Definition badLineItemJson : string :=
  jsonObject [jsonField "__type__" (quoted "LineItem");
              jsonField "maxSpeed" (quoted "fast")].

Definition fooItemJson : string :=
  jsonObject [jsonField "__type__" (quoted "Foo")].

Definition untypedItemJson : string :=
  jsonObject [jsonField "name" (quoted "siding")].

Definition placeJson : string :=
  jsonObject [jsonField "__type__" (quoted "Place");
              jsonField "placeCode" (quoted "STN");
              jsonField "name" (quoted "Station")].

(** [json.Unmarshal] into [auxItem] on these entries. *)
Definition demo_auxItem (raw : RawMessage) : string + gmap string RawMessage :=
  if String.eqb raw textItemJson then
    inr {[ "__type__"%string := quoted "TextItem" ]}
  else if String.eqb raw badLineItemJson then
    inr (<[ "__type__"%string := quoted "LineItem" ]>
           {[ "maxSpeed"%string := quoted "fast" ]})
  else if String.eqb raw fooItemJson then
    inr {[ "__type__"%string := quoted "Foo" ]}
  else if String.eqb raw untypedItemJson then
    inr {[ "name"%string := quoted "siding" ]}
  else if String.eqb raw placeJson then
    inr (<[ "__type__"%string := quoted "Place" ]>
           (<[ "placeCode"%string := quoted "STN" ]>
              {[ "name"%string := quoted "Station" ]}))
  else inl "json: cannot unmarshal into Go value of type simulation.auxItem"%string.

Definition demoPoint (x y : Z) : @Point demoEntities := (x, y).

Definition demoZeroItem (k : trackItemType) : @TrackItem demoEntities :=
  @Build_TrackItem demoEntities k None 0
    (demoPoint 0 0) (demoPoint 0 0) (demoPoint 0 0) None None None.

(** [json.Unmarshal] into a track-item struct: the speed of the line item is
    no number; the other entries leave the fields at their zero values. *)
Definition demo_TrackItem (k : trackItemType) (raw : RawMessage)
  : string + @TrackItem demoEntities :=
  if String.eqb raw badLineItemJson then
    inl "json: cannot unmarshal string into Go struct field LineItem.maxSpeed of type float64"%string
  else if String.eqb raw textItemJson || String.eqb raw fooItemJson
          || String.eqb raw untypedItemJson || String.eqb raw placeJson then
    inr (demoZeroItem k)
  else inl "unexpected end of JSON input"%string.

Definition demo_Place (raw : RawMessage) : string + Place :=
  if String.eqb raw placeJson then
    inr {| PlaceCode := "STN"; PlaceName := "Station" |}
  else if String.eqb raw textItemJson || String.eqb raw fooItemJson
          || String.eqb raw untypedItemJson || String.eqb raw badLineItemJson then
    inr {| PlaceCode := EmptyString; PlaceName := EmptyString |}
  else inl "unexpected end of JSON input"%string.

(** Scenario documents: the given track items, the given routes, and an
    empty message logger. *)
Definition demoDocument (items : list (string * string))
  (routes : list string) : string :=
  jsonObject
    [jsonField "trackItems"
       (jsonObject (map (fun e => jsonField (fst e) (snd e)) items));
     jsonField "routes"
       (jsonObject (map (fun num => jsonField num (jsonObject [])) routes));
     jsonField "messageLogger" (jsonObject [])].

Definition demoOptions (t : Time) : @options demoEntities :=
  @Build_options demoEntities t tt.

Definition demoZeroRoute : @Route demoEntities :=
  {| drSimulation := None; drItemsSeen := 0; drInitialized := false |}.

Definition demoRaw (items : list (string * string)) (routes : list string)
  : @auxSim demoEntities :=
  @Build_auxSim demoEntities
    (list_to_map items)
    (demoOptions 0)
    tt
    (list_to_map (map (fun num => (num, demoZeroRoute)) routes))
    ∅ ∅ []
    (Some {| mlSimulation := None; Messages := [] |}).

(** Key [abc] is no integer, and the line item under key 7 does not decode. *)
Definition itemsSkipped : list (string * string) :=
  [("abc"%string, textItemJson); ("7"%string, badLineItemJson)].

(** Keys [1] and [01] are both the integer 1. *)
Definition itemsSameId : list (string * string) :=
  [("1"%string, textItemJson); ("01"%string, textItemJson)].

Definition itemsUnknown : list (string * string) :=
  [("1"%string, fooItemJson)].

Definition itemsUntyped : list (string * string) :=
  [("1"%string, untypedItemJson)].

Definition itemsPlace : list (string * string) :=
  [("5"%string, placeJson); ("6"%string, textItemJson)].

Definition demoCases : list (list (string * string) * list string) :=
  [(itemsSkipped, []); (itemsSameId, []); (itemsUnknown, []);
   (itemsUntyped, []); (itemsPlace, ["1"%string]);
   (itemsPlace, ["x1"%string])].

(** The first [json.Unmarshal] on these documents. *)
Definition demo_auxSim (data : RawMessage) : string + @auxSim demoEntities :=
  match
    List.find (fun c => String.eqb data (demoDocument (fst c) (snd c))) demoCases
  with
  | Some c => inr (demoRaw (fst c) (snd c))
  | None => inl "unexpected end of JSON input"%string
  end.

Definition demoJson : @Json demoEntities :=
  {| json_auxSim := demo_auxSim; json_auxItem := demo_auxItem;
     json_TrackItem := demo_TrackItem; json_Place := demo_Place |}.

(** A simulation before any decode. *)
Definition demoZeroSim : @Simulation demoEntities :=
  @Build_Simulation demoEntities tt ∅ ∅ (demoOptions 0) ∅ ∅ ∅ []
    None None None None.

Definition demoDecode (items : list (string * string)) (routes : list string)
  : @Decoded demoEntities :=
  @UnmarshalJSON demoEntities demoRouteMethods demoJson demoRuntime
    1%nat demoZeroSim (demoDocument items routes).

(** A simulation with a message logger, initialized, and the worlds around
    it with and without a package logger. *)
Definition demoReadySim : @Simulation demoEntities :=
  (Initialize
     (set_MessageLogger (Some {| mlSimulation := Some 1%nat; Messages := [] |})
        demoZeroSim)).1.

Definition demoWorld (lg : option (list string)) : @World demoEntities :=
  {| wSim := demoReadySim; logger := lg; loops := 0; sending := [] |}.

(** Two services without lines and one whose first line leaves at 08:00. *)
Definition hour : Time := 3600 * 1000000000.

Definition demoServices : gmap string Service :=
  <[ "ICE1"%string := {| svcSimulation := Some 1%nat; Lines := [] |} ]>
  (<[ "ICE2"%string := {| svcSimulation := Some 1%nat; Lines := [] |} ]>
  {[ "REG1"%string :=
       {| svcSimulation := Some 1%nat;
          Lines := [ {| ScheduledDepartureTime := 8 * hour |};
                     {| ScheduledDepartureTime := 9 * hour |} ] |} ]}).

Definition demoTrain (code : string) : Train :=
  {| trainSimulation := Some 1%nat; ServiceCode := code |}.

Definition demoTrainsSim : @Simulation demoEntities :=
  set_Trains [demoTrain "ICE2"; demoTrain "REG1"; demoTrain "ICE1"]
    (set_Services demoServices demoZeroSim).

(** A second decoder, which also knows a line item without links and a
    scenario with a schedule. *)
Definition lineItemJson : string :=
  jsonObject [jsonField "__type__" (quoted "LineItem")].

Definition demo2_auxItem (raw : RawMessage) : string + gmap string RawMessage :=
  if String.eqb raw lineItemJson then
    inr {[ "__type__"%string := quoted "LineItem" ]}
  else demo_auxItem raw.

Definition demo2_TrackItem (k : trackItemType) (raw : RawMessage)
  : string + @TrackItem demoEntities :=
  if String.eqb raw lineItemJson then inr (demoZeroItem k)
  else demo_TrackItem k raw.

(** The line item under key 3 has no next item. *)
Definition itemsUnlinked : list (string * string) :=
  [("3"%string, lineItemJson); ("6"%string, textItemJson)].

Definition jsonArray (elems : list string) : string :=
  ("[" ++ jsonJoin elems ++ "]")%string.

(** A text item, a route, a train type, two services and two trains. *)
Definition scheduleJson : string :=
  jsonObject
    [jsonField "trackItems" (jsonObject [jsonField "6" textItemJson]);
     jsonField "routes" (jsonObject [jsonField "1" (jsonObject [])]);
     jsonField "trainTypes"
       (jsonObject
          [jsonField "UT" (jsonObject [jsonField "description" (quoted "unit")])]);
     jsonField "services"
       (jsonObject
          [jsonField "ICE1" (jsonObject [jsonField "lines" (jsonArray [])]);
           jsonField "REG1"
             (jsonObject
                [jsonField "lines"
                   (jsonArray
                      [jsonObject
                         [jsonField "scheduledDepartureTime"
                            (quoted "08:00:00")]])])]);
     jsonField "trains"
       (jsonArray
          [jsonObject [jsonField "serviceCode" (quoted "ICE1")];
           jsonObject [jsonField "serviceCode" (quoted "REG1")]]);
     jsonField "messageLogger" (jsonObject [])].

Definition scheduleRaw : @auxSim demoEntities :=
  @Build_auxSim demoEntities
    (list_to_map [("6"%string, textItemJson)])
    (demoOptions 0)
    tt
    (list_to_map [("1"%string, demoZeroRoute)])
    {[ "UT"%string := {| ttSimulation := None; ttDescription := "unit" |} ]}
    (<[ "ICE1"%string := {| svcSimulation := None; Lines := [] |} ]>
       {[ "REG1"%string :=
            {| svcSimulation := None;
               Lines := [ {| ScheduledDepartureTime := 8 * hour |} ] |} ]})
    [ {| trainSimulation := None; ServiceCode := "ICE1" |};
      {| trainSimulation := None; ServiceCode := "REG1" |} ]
    (Some {| mlSimulation := None; Messages := [] |}).

Definition demo2_auxSim (data : RawMessage) : string + @auxSim demoEntities :=
  if String.eqb data scheduleJson then inr scheduleRaw
  else if String.eqb data (demoDocument itemsUnlinked []) then
    inr (demoRaw itemsUnlinked [])
  else demo_auxSim data.

Definition demoJson2 : @Json demoEntities :=
  {| json_auxSim := demo2_auxSim; json_auxItem := demo2_auxItem;
     json_TrackItem := demo2_TrackItem; json_Place := demo_Place |}.

Definition demoDecode2 (data : RawMessage) : @Decoded demoEntities :=
  @UnmarshalJSON demoEntities demoRouteMethods demoJson2 demoRuntime
    1%nat demoZeroSim data.

(** A third decoder, which also knows an entry that is a number and a
    second place with the code of the first. *)
Definition numberJson : string := "5".

Definition placeJson2 : string :=
  jsonObject [jsonField "__type__" (quoted "Place");
              jsonField "placeCode" (quoted "STN");
              jsonField "name" (quoted "Depot")].

Definition demo3_auxItem (raw : RawMessage) : string + gmap string RawMessage :=
  if String.eqb raw numberJson then
    inl "json: cannot unmarshal number into Go value of type simulation.auxItem"%string
  else if String.eqb raw placeJson2 then
    inr (<[ "__type__"%string := quoted "Place" ]>
           (<[ "placeCode"%string := quoted "STN" ]>
              {[ "name"%string := quoted "Depot" ]}))
  else demo2_auxItem raw.

Definition demo3_Place (raw : RawMessage) : string + Place :=
  if String.eqb raw placeJson2 then
    inr {| PlaceCode := "STN"; PlaceName := "Depot" |}
  else demo_Place raw.

(** The entry under key 5 is a number; the one under key 1 has the
    discriminator [Foo]. *)
Definition itemsFooAndNumber : list (string * string) :=
  [("1"%string, fooItemJson); ("5"%string, numberJson)].

(** The entry under key 5 is a number; the one under key 1 has no
    discriminator. *)
Definition itemsUntypedAndNumber : list (string * string) :=
  [("1"%string, untypedItemJson); ("5"%string, numberJson)].

(** A text item under key 5, visited first, and an entry of discriminator
    [Foo] under key 1. *)
Definition itemsTextAndFoo : list (string * string) :=
  [("1"%string, fooItemJson); ("5"%string, textItemJson)].

(** A text item under key 5, visited first, and an entry without a
    discriminator under key 1. *)
Definition itemsTextAndUntyped : list (string * string) :=
  [("1"%string, untypedItemJson); ("5"%string, textItemJson)].

(** Two places of code [STN], under the keys 5 and 8. *)
Definition itemsTwoPlaces : list (string * string) :=
  [("5"%string, placeJson); ("8"%string, placeJson2)].

Definition demo3_auxSim (data : RawMessage) : string + @auxSim demoEntities :=
  match
    List.find (fun items => String.eqb data (demoDocument items []))
      [itemsFooAndNumber; itemsUntypedAndNumber; itemsTwoPlaces;
       itemsTextAndFoo; itemsTextAndUntyped]
  with
  | Some items => inr (demoRaw items [])
  | None => demo2_auxSim data
  end.

Definition demoJson3 : @Json demoEntities :=
  {| json_auxSim := demo3_auxSim; json_auxItem := demo3_auxItem;
     json_TrackItem := demo2_TrackItem; json_Place := demo3_Place |}.

Definition demoDecode3 (data : RawMessage) : @Decoded demoEntities :=
  @UnmarshalJSON demoEntities demoRouteMethods demoJson3 demoRuntime
    1%nat demoZeroSim data.

(** ** Further notions used by the properties *)

Section Reach.
Context `{Ent : Entities} `{!RouteMethods} `{!Json}.

(** An entry the loop over the track items goes past: it reads as an object
    and its discriminator is that of a track-item shape, or that of a place
    that decodes. *)
Definition entryAccepted (entry : string * RawMessage) : Prop :=
  exists rawItem,
    json_auxItem entry.2 = inr rawItem /\
    ((exists k, (tiTypeOf rawItem, k) ∈ trackItemShapes) \/
     (tiTypeOf rawItem = quoted "Place" /\
      exists pl, json_Place entry.2 = inr pl)).

(** The fields of the simulation that hold neither track items nor places
    are the same in two states. *)
Definition sameBesidesItems (s s' : Simulation) : Prop :=
  SignalLib s' = SignalLib s /\ Options s' = Options s /\
  Routes s' = Routes s /\ TrainTypes s' = TrainTypes s /\
  Services s' = Services s /\ Trains s' = Trains s /\
  MessageLogger_ s' = MessageLogger_ s /\ EventChan s' = EventChan s /\
  clockTicker s' = clockTicker s /\ stopChan s' = stopChan s.

(** The channels and the ticker are the same in two states. *)
Definition sameHandles (s s' : Simulation) : Prop :=
  EventChan s' = EventChan s /\ clockTicker s' = clockTicker s /\
  stopChan s' = stopChan s.

(** All of the simulation but the current time and the clock ticker is the
    same in two states. *)
Definition sameBesidesClock (s s' : Simulation) : Prop :=
  SignalLib s' = SignalLib s /\ TrackItems s' = TrackItems s /\
  Places s' = Places s /\
  optionsRest (Options s') = optionsRest (Options s) /\
  Routes s' = Routes s /\ TrainTypes s' = TrainTypes s /\
  Services s' = Services s /\ Trains s' = Trains s /\
  MessageLogger_ s' = MessageLogger_ s /\ EventChan s' = EventChan s /\
  stopChan s' = stopChan s.

(** Where the entries of the route mapping come from: a route of the
    document whose key parses to the number, given its back-reference and
    initialized against a simulation that held the given track items. *)
Definition routesFrom (self : SimRef) (m : gmap string Route)
  (items : gmap Z TrackItem) (sim : Simulation) : Prop :=
  forall n r, Routes sim !! n = Some r ->
    exists num route s,
      m !! num = Some route /\ Atoi num = inr n /\
      TrackItems s = items /\
      r = Route_initialize s (Route_setSimulation self route).

End Reach.

(** The clock events of [n] ticks that start after the time [t]. *)
Fixpoint tickEvents (t : Time) (n : nat) : list Event :=
  match n with
  | O => []
  | S n' =>
      {| Name := ClockEvent; Object := t + timeStep |}
      :: tickEvents (t + timeStep) n'
  end.

(** * Properties *)

Section Properties.
Context `{Ent : Entities} `{!RouteMethods} `{!Json} `{!GoRuntime}.

(** ** Loops *)

Lemma forRange_app {S X} (body : S -> X -> S * option error) st l1 l2 :
  forRange body st (l1 ++ l2) =
  match forRange body st l1 with
  | (st', Some e) => (st', Some e)
  | (st', None) => forRange body st' l2
  end.
Proof.
  revert st. induction l1 as [|x l1 IH]; intros st; simpl; [done|].
  destruct (body st x) as [st' [e|]]; [done|]. apply IH.
Qed.

(** The entries a [range] statement visits are those of the map. *)
Lemma elem_of_range `{Countable K} {A} (m : gmap K A) k v :
  (k, v) ∈ range m <-> m !! k = Some v.
Proof. rewrite (range_perm K A m). apply elem_of_map_to_list. Qed.

Lemma Forall_range_values `{Countable K} {A} (P : A -> Prop) (m : gmap K A) :
  Forall P ((range m).*2) <-> forall k v, m !! k = Some v -> P v.
Proof.
  rewrite Forall_fmap, Forall_forall. split.
  - intros HP k v Hkv. apply (HP (k, v)). by apply elem_of_range.
  - intros HP [k v] Hin. apply (HP k). by apply elem_of_range.
Qed.

(** ** checkTrackItemsLinks *)

Lemma checkItem_None (ti : TrackItem) : checkItem ti = None <-> linkRule ti.
Proof.
  unfold checkItem, checkReverse, checkNext, checkPrevious, linkRule.
  destruct (Type_ ti), (ReverseItem ti), (NextItem ti), (PreviousItem ti);
    simpl; split; try done; try (intros _; repeat split; by eauto);
    intros (Hr & Hn & Hp);
    try (by destruct Hr); try (by destruct Hn); try (by destruct Hp).
Qed.

Lemma checkItem_Some (ti : TrackItem) (e : error) :
  checkItem ti = Some e ->
  exists pt, firstUnresolved ti = Some pt /\ e = ItemNotLinkedAtError ti pt.
Proof.
  unfold checkItem, checkReverse, checkNext, checkPrevious, firstUnresolved.
  destruct (Type_ ti), (ReverseItem ti), (NextItem ti), (PreviousItem ti);
    simpl; intros [= <-] || done; eauto.
Qed.

Lemma checkLinksLoop_None (l : list TrackItem) :
  checkLinksLoop l = None <-> Forall linkRule l.
Proof.
  induction l as [|ti l IH]; simpl.
  - split; [constructor | done].
  - rewrite Forall_cons, <- IH, <- checkItem_None.
    destruct (checkItem ti); split; try done; by intros [].
Qed.

Lemma checkLinksLoop_Some (l : list TrackItem) (e : error) :
  checkLinksLoop l = Some e ->
  exists pre ti post pt,
    l = pre ++ ti :: post /\ Forall linkRule pre /\ ~ linkRule ti /\
    firstUnresolved ti = Some pt /\ e = ItemNotLinkedAtError ti pt.
Proof.
  induction l as [|ti l IH]; simpl; [done|].
  destruct (checkItem ti) as [e'|] eqn:Hti.
  - intros [= ->]. destruct (checkItem_Some _ _ Hti) as (pt & Hpt & ->).
    exists [], ti, l, pt. repeat split; [constructor| |done].
    rewrite <- checkItem_None, Hti. done.
  - intros He. destruct (IH He) as (pre & tj & post & pt & -> & Hpre & Hr).
    exists (ti :: pre), tj, post, pt. split; [done|]. split; [|done].
    constructor; [|done]. by apply checkItem_None.
Qed.

(** C2. [checkTrackItemsLinks] returns nil exactly when every track item of
    the simulation satisfies the link rule of its kind; otherwise it returns
    the link-validation error of the first item, in the order the loop visits
    them, that violates its rule, naming that item and its first unresolved
    connection point. *)
Theorem checkTrackItemsLinks_spec (sim : Simulation) :
  (checkTrackItemsLinks sim = None <->
   forall id ti, TrackItems sim !! id = Some ti -> linkRule ti) /\
  (forall e, checkTrackItemsLinks sim = Some e ->
   exists pre ti post pt,
     (range (TrackItems sim)).*2 = pre ++ ti :: post /\
     Forall linkRule pre /\ ~ linkRule ti /\
     firstUnresolved ti = Some pt /\ e = ItemNotLinkedAtError ti pt).
Proof.
  unfold checkTrackItemsLinks. split.
  - rewrite checkLinksLoop_None. apply Forall_range_values.
  - intros e. apply checkLinksLoop_Some.
Qed.

(** ** UnmarshalJSON: the loop over the track items *)

(** The arms of the type switch. *)
Lemma decodeTrackItem_shape self sim tiId tiString rawItem k :
  json_auxItem tiString = inr rawItem ->
  (tiTypeOf rawItem, k) ∈ trackItemShapes ->
  decodeTrackItem self sim (tiId, tiString) =
  ((unmarshalItem self tiId tiString (tiTypeOf rawItem) k sim).1, None).
Proof.
  intros Haux Hk. unfold decodeTrackItem. rewrite Haux.
  unfold trackItemShapes in Hk.
  repeat (apply elem_of_cons in Hk as [Hk|Hk];
          [injection Hk as Ht ->; rewrite Ht; reflexivity|]).
  by apply elem_of_nil in Hk.
Qed.

Lemma decodeTrackItem_Place self sim tiId tiString rawItem :
  json_auxItem tiString = inr rawItem ->
  tiTypeOf rawItem = quoted "Place" ->
  decodeTrackItem self sim (tiId, tiString) =
  match json_Place tiString with
  | inl err => (sim, Some (ErrDecodePlace tiString err))
  | inr pl => (set_Places (<[PlaceCode pl := pl]> (Places sim)) sim, None)
  end.
Proof.
  intros Haux Ht. unfold decodeTrackItem. rewrite Haux, Ht. reflexivity.
Qed.

Lemma decodeTrackItem_unknown self sim tiId tiString rawItem :
  json_auxItem tiString = inr rawItem ->
  tiTypeOf rawItem ∉ recognizedTypes ->
  decodeTrackItem self sim (tiId, tiString) =
  (sim, Some (ErrUnknownType (tiTypeOf rawItem))).
Proof.
  intros Haux Hk. unfold decodeTrackItem. rewrite Haux.
  cbv zeta.
  repeat match goal with
         | |- context [String.eqb ?a ?b] =>
             destruct (String.eqb_spec a b) as [Heq|_];
             [exfalso; apply Hk; rewrite Heq;
              unfold recognizedTypes, trackItemShapes; simpl;
              rewrite !elem_of_cons; naive_solver
             |]
         end.
  reflexivity.
Qed.

Lemma decodeTrackItem_unread self sim tiId tiString err :
  json_auxItem tiString = inl err ->
  decodeTrackItem self sim (tiId, tiString) =
  (sim, Some (ErrReadTrackItem tiString err)).
Proof. intros Haux. unfold decodeTrackItem. by rewrite Haux. Qed.

(** The discriminator of an entry is of a track-item shape, is that of a
    place, or is not recognized. *)
Lemma tiType_cases (t : string) :
  (exists k, (t, k) ∈ trackItemShapes) \/ t = quoted "Place" \/
  t ∉ recognizedTypes.
Proof.
  destruct (decide (t ∈ recognizedTypes)) as [Hin|Hout]; [|by right; right].
  unfold recognizedTypes in Hin. apply elem_of_app in Hin as [Hin|Hin].
  - left. apply list_elem_of_fmap in Hin as ([t' k] & -> & Hin). by exists k.
  - right; left. by apply list_elem_of_singleton in Hin.
Qed.

Lemma forRange_first_abort {S X} (body : S -> X -> S * option error)
  st pre x post e :
  Forall (fun y => forall s, (body s y).2 = None) pre ->
  (forall s, (body s x).2 = Some e) ->
  (forRange body st (pre ++ x :: post)).2 = Some e.
Proof.
  intros Hpre Hx. revert st.
  induction Hpre as [|y pre Hy _ IH]; intros st; simpl.
  - specialize (Hx st). destruct (body st x) as [st' [e'|]]; simpl in *; congruence.
  - specialize (Hy st). destruct (body st y) as [st' [e'|]]; simpl in *; [done|].
    apply IH.
Qed.

Lemma forRange_abort {S X} (body : S -> X -> S * option error) st l x :
  x ∈ l ->
  (forall s, is_Some (body s x).2) ->
  is_Some (forRange body st l).2.
Proof.
  intros Hin Hx. revert st. induction l as [|y l IH]; intros st.
  - by apply elem_of_nil in Hin.
  - simpl. destruct (body st y) as [st' [e'|]] eqn:Hy; [by eexists|].
    apply elem_of_cons in Hin as [->|Hin].
    + specialize (Hx st). rewrite Hy in Hx. by destruct Hx.
    + by apply IH.
Qed.

(** An error of the loop over the track items is what the decode returns. *)
Lemma UnmarshalJSON_items_error self sim data rawSim e :
  json_auxSim data = inr rawSim ->
  (decodeTrackItems self sim rawSim).2 = Some e ->
  decOutcome (UnmarshalJSON self sim data) = Returned (Some e).
Proof.
  intros Hraw He. unfold UnmarshalJSON. rewrite Hraw.
  destruct (decodeTrackItems self sim rawSim) as [sim' [e'|]]; simpl in *;
    congruence.
Qed.

(** Whether the turn of an entry fails, and with which error, does not
    depend on the state of the simulation. *)
Lemma decodeTrackItem_error self s s' entry :
  (decodeTrackItem self s entry).2 = (decodeTrackItem self s' entry).2.
Proof.
  destruct entry as [key raw].
  destruct (json_auxItem raw) as [err|rawItem] eqn:Haux.
  { by rewrite !(decodeTrackItem_unread _ _ _ _ _ Haux). }
  destruct (tiType_cases (tiTypeOf rawItem)) as [[k Hk]|[Hpl|Hun]].
  - by rewrite !(decodeTrackItem_shape _ _ _ _ _ _ Haux Hk).
  - rewrite !(decodeTrackItem_Place _ _ _ _ _ Haux Hpl).
    by destruct (json_Place raw).
  - by rewrite !(decodeTrackItem_unknown _ _ _ _ _ Haux Hun).
Qed.

(** The error a loop returns is that of the first entry, in the order of
    the visit, whose turn fails. *)
Lemma forRange_error_first {S X} (body : S -> X -> S * option error) st l e :
  (forall s s' x, (body s x).2 = (body s' x).2) ->
  (forRange body st l).2 = Some e ->
  exists pre x post,
    l = pre ++ x :: post /\
    Forall (fun y => forall s, (body s y).2 = None) pre /\
    (forall s, (body s x).2 = Some e).
Proof.
  intros Hindep. revert st. induction l as [|y l IH]; intros st; simpl; [done|].
  destruct (body st y) as [st' [e'|]] eqn:Hy; simpl.
  - intros [= ->]. exists [], y, l. split; [done|]. split; [constructor|].
    intros s. rewrite (Hindep s st y). by rewrite Hy.
  - intros He. destruct (IH st' He) as (pre & x & post & -> & Hpre & Hx).
    exists (y :: pre), x, post. split; [done|]. split; [|done].
    constructor; [|done]. intros s. rewrite (Hindep s st y). by rewrite Hy.
Qed.

(** An entry whose discriminator is not recognized aborts the decode: the
    error returned is that of the first entry visited whose turn fails, and
    it names that discriminator when no entry visited before it fails. *)
Lemma unrecognized_aborts self sim data rawSim tiId tiString rawItem :
  json_auxSim data = inr rawSim ->
  raw_TrackItems rawSim !! tiId = Some tiString ->
  json_auxItem tiString = inr rawItem ->
  tiTypeOf rawItem ∉ recognizedTypes ->
  (exists e pre en post,
     range (raw_TrackItems rawSim) = pre ++ en :: post /\
     Forall (fun y => forall s, (decodeTrackItem self s y).2 = None) pre /\
     (forall s, (decodeTrackItem self s en).2 = Some e) /\
     decOutcome (UnmarshalJSON self sim data) = Returned (Some e)) /\
  (forall pre post,
     range (raw_TrackItems rawSim) = pre ++ (tiId, tiString) :: post ->
     Forall (fun en => forall s, (decodeTrackItem self s en).2 = None) pre ->
     decOutcome (UnmarshalJSON self sim data) =
     Returned (Some (ErrUnknownType (tiTypeOf rawItem)))).
Proof.
  intros Hraw Hentry Haux Hty.
  assert (forall s, (decodeTrackItem self s (tiId, tiString)).2 =
                    Some (ErrUnknownType (tiTypeOf rawItem))) as Hstep.
  { intros s. by rewrite (decodeTrackItem_unknown _ _ _ _ _ Haux Hty). }
  split.
  - destruct (forRange_abort (decodeTrackItem self)
                (set_Places ∅ (set_TrackItems ∅ sim))
                (range (raw_TrackItems rawSim)) (tiId, tiString)) as [e He].
    + by apply elem_of_range.
    + intros s. rewrite Hstep. by eexists.
    + destruct (forRange_error_first (decodeTrackItem self) _ _ e
                  (decodeTrackItem_error self) He)
        as (pre & en & post & Hsplit & Hpre & Hen).
      exists e, pre, en, post. repeat split; try done.
      by apply UnmarshalJSON_items_error with rawSim.
  - intros pre post Hrange Hpre.
    apply UnmarshalJSON_items_error with rawSim; [done|].
    unfold decodeTrackItems. rewrite Hrange.
    by apply forRange_first_abort.
Qed.

(** C4, as amended. The turn of a track-item entry whose discriminator is
    none of the eight recognized values returns the unknown-type error of
    that entry.  With such an entry in the scenario [UnmarshalJSON] returns
    an error, whatever the order of the visit: the error of the first entry
    visited whose turn fails, which is the unknown-type error of this entry
    when no entry visited before it fails. *)
Theorem unknown_type_aborts self sim data rawSim tiId tiString rawItem raw :
  json_auxSim data = inr rawSim ->
  raw_TrackItems rawSim !! tiId = Some tiString ->
  json_auxItem tiString = inr rawItem ->
  rawItem !! "__type__"%string = Some raw ->
  raw ∉ recognizedTypes ->
  (forall s, decodeTrackItem self s (tiId, tiString) =
             (s, Some (ErrUnknownType raw))) /\
  (exists e pre en post,
     range (raw_TrackItems rawSim) = pre ++ en :: post /\
     Forall (fun y => forall s, (decodeTrackItem self s y).2 = None) pre /\
     (forall s, (decodeTrackItem self s en).2 = Some e) /\
     decOutcome (UnmarshalJSON self sim data) = Returned (Some e)) /\
  (forall pre post,
     range (raw_TrackItems rawSim) = pre ++ (tiId, tiString) :: post ->
     Forall (fun en => forall s, (decodeTrackItem self s en).2 = None) pre ->
     decOutcome (UnmarshalJSON self sim data) =
     Returned (Some (ErrUnknownType raw))).
Proof.
  intros Hraw Hentry Haux Hfield Hty.
  assert (tiTypeOf rawItem = raw) as Ht by (unfold tiTypeOf; by rewrite Hfield).
  rewrite <- Ht in *. split.
  - intros s. by apply decodeTrackItem_unknown.
  - by apply unrecognized_aborts.
Qed.

(** C9, as amended. The turn of a track-item entry without a discriminator
    field takes the default arm of the type switch and returns the
    unknown-type error, with an empty type, as for a discriminator that is
    not recognized.  With such an entry in the scenario [UnmarshalJSON]
    returns an error, whatever the order of the visit: the error of the
    first entry visited whose turn fails, which is the unknown-type error of
    this entry when no entry visited before it fails. *)
Theorem missing_type_aborts self sim data rawSim tiId tiString rawItem :
  json_auxSim data = inr rawSim ->
  raw_TrackItems rawSim !! tiId = Some tiString ->
  json_auxItem tiString = inr rawItem ->
  rawItem !! "__type__"%string = None ->
  (forall s, decodeTrackItem self s (tiId, tiString) =
             (s, Some (ErrUnknownType EmptyString))) /\
  (exists e pre en post,
     range (raw_TrackItems rawSim) = pre ++ en :: post /\
     Forall (fun y => forall s, (decodeTrackItem self s y).2 = None) pre /\
     (forall s, (decodeTrackItem self s en).2 = Some e) /\
     decOutcome (UnmarshalJSON self sim data) = Returned (Some e)) /\
  (forall pre post,
     range (raw_TrackItems rawSim) = pre ++ (tiId, tiString) :: post ->
     Forall (fun en => forall s, (decodeTrackItem self s en).2 = None) pre ->
     decOutcome (UnmarshalJSON self sim data) =
     Returned (Some (ErrUnknownType EmptyString))).
Proof.
  intros Hraw Hentry Haux Hfield.
  assert (tiTypeOf rawItem = EmptyString) as Ht
    by (unfold tiTypeOf; by rewrite Hfield).
  assert (tiTypeOf rawItem ∉ recognizedTypes) as Hty.
  { rewrite Ht. unfold recognizedTypes, trackItemShapes. simpl.
    rewrite !elem_of_cons, elem_of_nil. intuition discriminate. }
  rewrite <- Ht. split.
  - intros s. by apply decodeTrackItem_unknown.
  - by apply unrecognized_aborts.
Qed.

(** In a track-item arm the error of [unmarshalItem] is dropped: the entry
    is skipped and the loop goes on. *)
Lemma unmarshalItem_error_state self tiId tiString tiType k sim e :
  (unmarshalItem self tiId tiString tiType k sim).2 = Some e ->
  (unmarshalItem self tiId tiString tiType k sim).1 = sim.
Proof.
  unfold unmarshalItem.
  destruct (json_TrackItem k tiString); [done|].
  by destruct (Atoi (Trim tiId dq)).
Qed.

Lemma item_error_dropped self sim tiId tiString rawItem k e :
  json_auxItem tiString = inr rawItem ->
  (tiTypeOf rawItem, k) ∈ trackItemShapes ->
  (unmarshalItem self tiId tiString (tiTypeOf rawItem) k sim).2 = Some e ->
  decodeTrackItem self sim (tiId, tiString) = (sim, None).
Proof.
  intros Haux Hk He.
  rewrite (decodeTrackItem_shape _ _ _ _ _ _ Haux Hk).
  by rewrite (unmarshalItem_error_state _ _ _ _ _ _ _ He).
Qed.

(** A property of the state that every turn of a loop keeps holds when the
    loop is left. *)
Lemma forRange_preserves {S X} (body : S -> X -> S * option error)
  (I : S -> Prop) (l : list X) :
  (forall st x, x ∈ l -> I st -> I (body st x).1) ->
  forall st, I st -> I (forRange body st l).1.
Proof.
  induction l as [|x l IH]; intros Hstep st Hst; simpl; [done|].
  pose proof (Hstep st x (list_elem_of_here _ _) Hst) as Hx.
  destruct (body st x) as [st' [e|]]; [done|].
  apply IH; [|done]. intros st'' y Hy. apply Hstep. by apply list_elem_of_further.
Qed.

Lemma decodeTrackItem_from self m sim key raw :
  m !! key = Some raw ->
  itemsFrom self m sim /\ placesFrom m sim ->
  itemsFrom self m (decodeTrackItem self sim (key, raw)).1 /\
  placesFrom m (decodeTrackItem self sim (key, raw)).1.
Proof.
  intros Hkey [Hitems Hplaces].
  destruct (json_auxItem raw) as [err|rawItem] eqn:Haux.
  { by rewrite (decodeTrackItem_unread _ _ _ _ _ Haux). }
  destruct (tiType_cases (tiTypeOf rawItem)) as [[k Hk]|[Hpl|Hun]].
  - rewrite (decodeTrackItem_shape _ _ _ _ _ _ Haux Hk). simpl.
    unfold unmarshalItem.
    destruct (json_TrackItem k raw) as [err|decoded] eqn:Hdec; [done|].
    destruct (Atoi (Trim key dq)) as [err|id] eqn:Hid; [done|].
    split; [|done]. intros id' ti. simpl.
    destruct (decide (id = id')) as [<-|Hne].
    + rewrite lookup_insert_eq. intros [= <-].
      by exists key, raw, rawItem, k, decoded.
    + rewrite lookup_insert_ne by done. apply Hitems.
  - rewrite (decodeTrackItem_Place _ _ _ _ _ Haux Hpl).
    destruct (json_Place raw) as [err|pl] eqn:Hdec; [done|].
    split; [done|]. intros code pl'. simpl.
    destruct (decide (PlaceCode pl = code)) as [<-|Hne].
    + rewrite lookup_insert_eq. intros [= <-]. split; [done|].
      by exists key, raw, rawItem.
    + rewrite lookup_insert_ne by done. apply Hplaces.
  - by rewrite (decodeTrackItem_unknown _ _ _ _ _ Haux Hun).
Qed.

Lemma decodeTrackItems_from self sim rawSim :
  itemsFrom self (raw_TrackItems rawSim) (decodeTrackItems self sim rawSim).1 /\
  placesFrom (raw_TrackItems rawSim) (decodeTrackItems self sim rawSim).1.
Proof.
  unfold decodeTrackItems.
  apply (forRange_preserves (decodeTrackItem self)
           (fun s => itemsFrom self (raw_TrackItems rawSim) s /\
                     placesFrom (raw_TrackItems rawSim) s)).
  - intros st [key raw] Hin. apply decodeTrackItem_from. by apply elem_of_range.
  - split; intros ? ?; simpl; by rewrite lookup_empty.
Qed.

(** The loop over the routes writes to the route mapping only. *)
Lemma decodeRoute_keeps self st entry :
  TrackItems (decodeRoute self st entry).1.1 = TrackItems st.1 /\
  Places (decodeRoute self st entry).1.1 = Places st.1.
Proof.
  destruct st as [sim objs], entry as [num route]. simpl.
  by destruct (Atoi num).
Qed.

Lemma decodeRoutes_keeps self sim rawSim :
  TrackItems (decodeRoutes self sim rawSim).1.1 = TrackItems sim /\
  Places (decodeRoutes self sim rawSim).1.1 = Places sim.
Proof.
  unfold decodeRoutes.
  apply (forRange_preserves (decodeRoute self)
           (fun st => TrackItems st.1 = TrackItems sim /\
                      Places st.1 = Places sim)); [|done].
  intros st entry _ [Hi Hp].
  destruct (decodeRoute_keeps self st entry) as [Hi' Hp']. by rewrite Hi', Hp'.
Qed.

(** What [UnmarshalJSON] leaves in the two mappings is what the loop over
    the track items put there. *)
Lemma UnmarshalJSON_mappings self sim data rawSim :
  json_auxSim data = inr rawSim ->
  TrackItems (decSim (UnmarshalJSON self sim data)) =
    TrackItems (decodeTrackItems self sim rawSim).1 /\
  Places (decSim (UnmarshalJSON self sim data)) =
    Places (decodeTrackItems self sim rawSim).1.
Proof.
  intros Hraw. unfold UnmarshalJSON. rewrite Hraw.
  destruct (decodeTrackItems self sim rawSim) as [sim1 [e|]]; [done|].
  destruct (checkTrackItemsLinks sim1); [done|]. simpl.
  match goal with
  | |- context [decodeRoutes self ?s rawSim] =>
      pose proof (decodeRoutes_keeps self s rawSim) as [Hi Hp];
      destruct (decodeRoutes self s rawSim) as [[sim2 objs] [e|]]
  end; simpl in *; [done|].
  destruct (sort_Slice _ _); [|done]. simpl.
  by destruct (raw_MessageLogger rawSim).
Qed.

(** C8, as amended. After a successful decode the track-item mapping is
    keyed by id: the item held at an id carries that id and the
    back-reference to the decoding simulation, and is what an entry of the
    scenario whose string key parses to the id decodes to, with the kind its
    discriminator names and the connection points and links of the decoded
    substructure. *)
Theorem track_item_ids_are_keys self sim data rawSim :
  json_auxSim data = inr rawSim ->
  decOutcome (UnmarshalJSON self sim data) = Returned None ->
  forall id ti,
    TrackItems (decSim (UnmarshalJSON self sim data)) !! id = Some ti ->
    ID ti = id /\ tiSimulation ti = Some self /\
    exists key raw rawItem k decoded,
      raw_TrackItems rawSim !! key = Some raw /\
      Atoi (Trim key dq) = inr id /\
      json_auxItem raw = inr rawItem /\
      (tiTypeOf rawItem, k) ∈ trackItemShapes /\
      json_TrackItem k raw = inr decoded /\
      Type_ ti = k /\
      Origin ti = Origin decoded /\ End_ ti = End_ decoded /\
      Reverse ti = Reverse decoded /\
      PreviousItem ti = PreviousItem decoded /\
      NextItem ti = NextItem decoded /\
      ReverseItem ti = ReverseItem decoded.
Proof.
  intros Hraw _ id ti Hti.
  destruct (UnmarshalJSON_mappings self sim data rawSim Hraw) as [Hitems _].
  rewrite Hitems in Hti.
  destruct (decodeTrackItems_from self sim rawSim) as [Hfrom _].
  destruct (Hfrom id ti Hti)
    as (key & raw & rawItem & k & dec & Hk & Haux & Hshape & Hdec & Hid & ->).
  split; [done|]. split; [done|].
  exists key, raw, rawItem, k, dec. by repeat split.
Qed.

(** ** UnmarshalJSON: the loop over the routes *)

Lemma forRange_pass {S X} (body : S -> X -> S * option error) st pre l :
  Forall (fun y => forall s, (body s y).2 = None) pre ->
  forRange body st (pre ++ l) = forRange body (forRange body st pre).1 l.
Proof.
  intros Hpre. rewrite forRange_app.
  assert ((forRange body st pre).2 = None) as Hnone.
  { revert st. induction Hpre as [|y pre Hy _ IH]; intros st; simpl; [done|].
    specialize (Hy st). destruct (body st y) as [st' [e|]]; simpl in *; [done|].
    apply IH. }
  destruct (forRange body st pre) as [st' [e|]]; simpl in *; done.
Qed.

(** C10. When the key of a route is no integer, the route is given its
    back-reference and initialized before the key is parsed: the decode
    returns the invalid-route-number error, and the route object is left
    initialized, with its back-reference set, although the route mapping of
    the simulation does not receive it. *)
Theorem bad_route_key_after_initialize
  self sim data rawSim sim1 pre num route post err :
  json_auxSim data = inr rawSim ->
  decodeTrackItems self sim rawSim = (sim1, None) ->
  checkTrackItemsLinks sim1 = None ->
  range (raw_Routes rawSim) = pre ++ (num, route) :: post ->
  Forall (fun en => exists n, Atoi en.1 = inr n) pre ->
  Atoi num = inl err ->
  (forall s objs,
     decodeRoute self (s, objs) (num, route) =
     ((s, <[num := Route_initialize s (Route_setSimulation self route)]> objs),
      Some (ErrRouteNum num))) /\
  decOutcome (UnmarshalJSON self sim data) = Returned (Some (ErrRouteNum num)) /\
  decRoutes (UnmarshalJSON self sim data) !! num =
    Some (Route_initialize (decSim (UnmarshalJSON self sim data))
            (Route_setSimulation self route)).
Proof.
  intros Hraw Hitems Hlinks Hrange Hpre Hnum.
  assert (forall s objs,
     decodeRoute self (s, objs) (num, route) =
     ((s, <[num := Route_initialize s (Route_setSimulation self route)]> objs),
      Some (ErrRouteNum num))) as Hstep.
  { intros s objs. simpl. by rewrite Hnum. }
  split; [done|].
  unfold UnmarshalJSON. rewrite Hraw, Hitems, Hlinks.
  unfold decodeRoutes. rewrite Hrange, forRange_pass.
  - match goal with
    | |- context [forRange (decodeRoute self) ?st pre] =>
        destruct (forRange (decodeRoute self) st pre) as [[s objs] o]
    end.
    simpl forRange. rewrite Hnum. simpl. split; [done|].
    by rewrite lookup_insert_eq.
  - eapply Forall_impl; [exact Hpre|].
    intros [k r] [n Hn] [s objs]. simpl in *. by rewrite Hn.
Qed.

(** ** The order of the trains *)

Lemma ltb_lexLt (a b : string) : String.ltb a b = true <-> lexLt a b.
Proof.
  unfold String.ltb. revert b.
  induction a as [|c1 a IH]; intros [|c2 b]; simpl.
  - split; [done | inversion 1].
  - split; [constructor | done].
  - split; [done | inversion 1].
  - unfold Ascii.compare.
    destruct (N.compare_spec (N_of_ascii c1) (N_of_ascii c2)) as [Heq|Hlt|Hgt].
    + assert (c1 = c2) as ->.
      { rewrite <- (ascii_N_embedding c1), <- (ascii_N_embedding c2).
        by rewrite Heq. }
      rewrite IH. split; [by constructor|].
      inversion 1; subst; [lia | done].
    + split; [intros _; by constructor | done].
    + split; [done|]. inversion 1; subst; lia.
Qed.

Lemma Time_Sub_neg (t u : Time) : (Time_Sub t u <? 0) = true <-> t < u.
Proof.
  unfold Time_Sub, minDuration, maxDuration, Time, Duration in *.
  change (2 ^ 63) with 9223372036854775808.
  rewrite Z.ltb_lt.
  repeat match goal with
         | |- context [?a <? ?b] => destruct (Z.ltb_spec a b)
         end; lia.
Qed.

(** C3. For two trains whose services are resolved, the comparator handed
    to [sort.Slice] answers: by service code, lexicographically, when both
    services have no line; false when only the first has none; true when
    only the second has none; and otherwise by the scheduled departure times
    of the first lines, the earlier first. *)
Theorem trainLess_spec (sim : Simulation) (A B : Train) (sa sb : Service) :
  Train_Service sim A = Some sa ->
  Train_Service sim B = Some sb ->
  exists b : bool,
    trainLess sim A B = Some b /\
    (Lines sa = [] -> Lines sb = [] ->
     (b = true <-> lexLt (ServiceCode A) (ServiceCode B))) /\
    (Lines sa = [] -> Lines sb <> [] -> b = false) /\
    (Lines sa <> [] -> Lines sb = [] -> b = true) /\
    (forall la ra lb rb, Lines sa = la :: ra -> Lines sb = lb :: rb ->
     (b = true <->
      ScheduledDepartureTime la < ScheduledDepartureTime lb)).
Proof.
  intros Ha Hb. unfold trainLess. rewrite Ha, Hb.
  eexists; split; [reflexivity|].
  destruct (Lines sa) as [|la ra], (Lines sb) as [|lb rb]; simpl;
    (split; [|split; [|split]]); try done.
  - intros _ _. apply ltb_lexLt.
  - intros ? ? ? ? [= -> ->] [= -> ->]. apply Time_Sub_neg.
Qed.

(** ** The clock *)

(** C5, as amended. [Start] panics exactly when the stop channel or the
    event channel is not allocated, or the package logger is nil; in the
    first two cases it panics before it changes anything. *)
Theorem Start_panics_iff (w : World) :
  ((Start w).2 = Panic <->
   stopChan (wSim w) = None \/ EventChan (wSim w) = None \/ logger w = None) /\
  (stopChan (wSim w) = None \/ EventChan (wSim w) = None ->
   Start w = (w, Panic)).
Proof.
  unfold Start, logger_Info.
  destruct (stopChan (wSim w)), (EventChan (wSim w)), (logger w) eqn:Hl;
    simpl; rewrite ?Hl; simpl; split; try tauto; try done;
    try (intros [|[|]]; done); try (split; [done| intros [|[|]]; done]);
    intuition done.
Qed.


End Properties.

(** * The orchestrator at work on the small instance *)

Section Examples.
#[local] Existing Instance demoEntities.
#[local] Existing Instance demoRouteMethods.
#[local] Existing Instance demoJson.
#[local] Existing Instance demoRuntime.

(** C1. The scenario holds a text item under the key [abc] and a line item
    whose speed is a string under the key [7].  [unmarshalItem] reports the
    key of the first and the substructure of the second, and the decode
    nevertheless returns nil, with an empty track-item mapping. *)
Theorem item_errors_are_dropped :
  (unmarshalItem 1%nat "abc" textItemJson (quoted "TextItem") textItem
     demoZeroSim).2 = Some (ErrConvert ErrSyntax) /\
  (exists err,
     (unmarshalItem 1%nat "7" badLineItemJson (quoted "LineItem") lineItem
        demoZeroSim).2 = Some (ErrDecodeItem (quoted "LineItem") badLineItemJson err)) /\
  decOutcome (demoDecode itemsSkipped []) = Returned None /\
  TrackItems (decSim (demoDecode itemsSkipped [])) = ∅.
Proof.
  split; [by vm_compute|]. split; [eexists; by vm_compute|].
  split; by vm_compute.
Qed.

(** A line item whose next link is not set fails the validation at its end
    point. *)
Lemma checkTrackItemsLinks_spec_witness :
  let ti := TrackItem_setID 4 (demoZeroItem lineItem) in
  let sim := set_TrackItems {[ 4 := ti ]} demoZeroSim in
  checkTrackItemsLinks sim = Some (ItemNotLinkedAtError ti (End_ ti)) /\
  ~ (forall id ti', TrackItems sim !! id = Some ti' -> linkRule ti').
Proof.
  intros ti sim. split; [by vm_compute|].
  intros Hall. apply (proj1 (checkTrackItemsLinks_spec sim)) in Hall.
  vm_compute in Hall. discriminate Hall.
Defined.

(** A train without lines against one that leaves at 08:00. *)
Lemma trainLess_spec_witness :
  Train_Service demoTrainsSim (demoTrain "ICE1") =
    Some {| svcSimulation := Some 1%nat; Lines := [] |} /\
  (exists sb, Train_Service demoTrainsSim (demoTrain "REG1") = Some sb /\
              Lines sb <> []) /\
  trainLess demoTrainsSim (demoTrain "ICE1") (demoTrain "REG1") = Some false /\
  trainLess demoTrainsSim (demoTrain "REG1") (demoTrain "ICE1") = Some true.
Proof.
  assert (Train_Service demoTrainsSim (demoTrain "ICE1") =
          Some {| svcSimulation := Some 1%nat; Lines := [] |}) as Ha
    by (vm_compute; reflexivity).
  destruct (Train_Service demoTrainsSim (demoTrain "REG1")) as [sb|] eqn:Hb;
    [|vm_compute in Hb; discriminate Hb].
  assert (Lines sb <> []) as Hlines.
  { vm_compute in Hb. injection Hb as <-. discriminate. }
  split; [exact Ha|]. split; [by exists sb|].
  destruct (trainLess_spec demoTrainsSim _ _ _ _ Ha Hb)
    as (b & -> & _ & Hfalse & _).
  destruct (trainLess_spec demoTrainsSim _ _ _ _ Hb Ha)
    as (b' & -> & _ & _ & Htrue & _).
  split; f_equal; [by apply Hfalse | by apply Htrue].
Defined.

(** Sorting the trains ICE2, REG1, ICE1 puts the scheduled train first and
    the others in the order of their service codes. *)
Example trains_sorted :
  (ServiceCode <$> default [] (sort_Slice (trainLess demoTrainsSim)
                                 (Trains demoTrainsSim))) =
  ["REG1"; "ICE1"; "ICE2"]%string.
Proof. by vm_compute. Qed.

(** C8, as stated, fails: the keys [1] and [01] are distinct, their entries
    decode into text items, both parse to the id 1, the decode succeeds, and
    the two entries of the scenario leave one item in the track-item
    mapping. *)
Lemma distinct_keys_same_id :
  decOutcome (demoDecode itemsSameId []) = Returned None /\
  raw_TrackItems (demoRaw itemsSameId []) !! "1"%string = Some textItemJson /\
  raw_TrackItems (demoRaw itemsSameId []) !! "01"%string = Some textItemJson /\
  "1"%string <> "01"%string /\
  (unmarshalItem 1%nat "1" textItemJson (quoted "TextItem") textItem
     demoZeroSim).2 = None /\
  (unmarshalItem 1%nat "01" textItemJson (quoted "TextItem") textItem
     demoZeroSim).2 = None /\
  Atoi (Trim "1" dq) = inr 1 /\
  Atoi (Trim "01" dq) = inr 1 /\
  size (raw_TrackItems (demoRaw itemsSameId [])) = 2%nat /\
  size (TrackItems (decSim (demoDecode itemsSameId []))) = 1%nat.
Proof. repeat split; by vm_compute. Qed.

Lemma track_item_ids_are_keys_witness :
  decOutcome (demoDecode itemsSameId []) = Returned None /\
  forall id ti,
    TrackItems (decSim (demoDecode itemsSameId [])) !! id = Some ti ->
    ID ti = id /\ tiSimulation ti = Some 1%nat /\
    exists key raw decoded,
      raw_TrackItems (demoRaw itemsSameId []) !! key = Some raw /\
      Atoi (Trim key dq) = inr id /\
      NextItem ti = NextItem decoded /\
      PreviousItem ti = PreviousItem decoded.
Proof.
  assert (decOutcome (demoDecode itemsSameId []) = Returned None) as Hok
    by (vm_compute; reflexivity).
  assert (json_auxSim (demoDocument itemsSameId []) =
          inr (demoRaw itemsSameId [])) as Hraw by (vm_compute; reflexivity).
  split; [exact Hok|]. intros id ti Hti.
  destruct (track_item_ids_are_keys 1%nat demoZeroSim
              (demoDocument itemsSameId []) (demoRaw itemsSameId [])
              Hraw Hok id ti Hti)
    as (Hid & Hsim & key & raw & rawItem & k & dec & Hkey & Hnum & _ & _ & _ &
        _ & _ & _ & _ & Hprev & Hnext & _).
  split; [exact Hid|]. split; [exact Hsim|].
  exists key, raw, dec. repeat split; assumption.
Defined.

(** The only route of the scenario has the key [x1]. *)
Lemma bad_route_key_after_initialize_witness :
  Atoi "x1" = inl ErrSyntax /\
  decOutcome (demoDecode itemsPlace ["x1"%string]) =
    Returned (Some (ErrRouteNum "x1")) /\
  decRoutes (demoDecode itemsPlace ["x1"%string]) !! "x1"%string =
    Some (Route_initialize (decSim (demoDecode itemsPlace ["x1"%string]))
            (Route_setSimulation 1%nat demoZeroRoute)) /\
  Routes (decSim (demoDecode itemsPlace ["x1"%string])) = ∅.
Proof.
  assert (Atoi "x1" = inl ErrSyntax) as Hnum by (vm_compute; reflexivity).
  split; [exact Hnum|].
  assert (Forall (fun en : string * Route => exists n, Atoi en.1 = inr n) [])
    as Hpre by constructor.
  destruct (fun H1 H2 H3 H4 =>
              bad_route_key_after_initialize 1%nat demoZeroSim
                (demoDocument itemsPlace ["x1"%string])
                (demoRaw itemsPlace ["x1"%string])
                (decodeTrackItems 1%nat demoZeroSim
                   (demoRaw itemsPlace ["x1"%string])).1
                [] "x1" demoZeroRoute [] ErrSyntax H1 H2 H3 H4 Hpre Hnum)
    as (_ & Hout & Hobj); try (vm_compute; reflexivity).
  split; [exact Hout|]. split; [exact Hobj | by vm_compute].
Defined.

(** C5, as stated, fails: [Initialize] has allocated both channels, the
    package logger is nil, and [Start] panics. *)
Lemma Start_panics_without_logger :
  stopChan (wSim (demoWorld None)) = Some mkChan /\
  EventChan (wSim (demoWorld None)) = Some mkChan /\
  (Start (demoWorld None)).2 = Panic /\
  (Start (demoWorld (Some []))).2 = Normal.
Proof. repeat split; by vm_compute. Qed.

(** Two ticks advance the clock by one second and leave two events with
    the sending tasks. *)
Example two_ticks :
  let w := (Start (demoWorld (Some []))).1 in
  let w' := (run [tickReceived; tickReceived] w).1 in
  CurrentTime (Options (wSim w')) = CurrentTime (Options (wSim w)) + 2 * timeStep /\
  Object <$> sending w' = [500000000; 1000000000] /\
  (run [tickReceived; tickReceived] w).2 = LoopWaiting /\
  (run [tickReceived; stopReceived; tickReceived] w).2 = LoopReturned.
Proof. repeat split; by vm_compute. Qed.

End Examples.

(** * Further properties of the orchestrator *)

Section MoreProperties.
Context `{Ent : Entities} `{!RouteMethods} `{!Json} `{!GoRuntime}.

(** ** The loop over the track items *)

Lemma forRange_None_iff {S X} (body : S -> X -> S * option error)
  (ok : X -> Prop) st l :
  (forall s x, (body s x).2 = None <-> ok x) ->
  (forRange body st l).2 = None <-> Forall ok l.
Proof.
  intros Hok. revert st. induction l as [|x l IH]; intros st; simpl.
  - split; [constructor | done].
  - rewrite Forall_cons, <- (Hok st x).
    destruct (body st x) as [st' [e|]]; simpl.
    + split; [done | by intros []].
    + rewrite IH. tauto.
Qed.

Lemma trackItemShapes_not_Place k : (quoted "Place", k) ∉ trackItemShapes.
Proof.
  unfold trackItemShapes. rewrite !elem_of_cons, elem_of_nil.
  intuition discriminate.
Qed.

Lemma decodeTrackItem_accepts self s entry :
  (decodeTrackItem self s entry).2 = None <-> entryAccepted entry.
Proof.
  destruct entry as [key raw]. unfold entryAccepted. cbn [snd].
  destruct (json_auxItem raw) as [err|rawItem] eqn:Haux.
  - rewrite (decodeTrackItem_unread _ _ _ _ _ Haux). simpl.
    split; [done | by intros (? & ? & _)].
  - destruct (tiType_cases (tiTypeOf rawItem)) as [[k Hk]|[Hpl|Hun]].
    + rewrite (decodeTrackItem_shape _ _ _ _ _ _ Haux Hk). simpl.
      split; [|done]. intros _. exists rawItem. split; [done|]. left. by exists k.
    + rewrite (decodeTrackItem_Place _ _ _ _ _ Haux Hpl).
      destruct (json_Place raw) as [err|pl] eqn:Hdec; simpl.
      * split; [done|]. intros (ri & [= <-] & [[k Hk]|[_ [pl [=]]]]).
        rewrite Hpl in Hk. by apply trackItemShapes_not_Place in Hk.
      * split; [|done]. intros _. exists rawItem. split; [done|]. right.
        split; [done|]. by exists pl.
    + rewrite (decodeTrackItem_unknown _ _ _ _ _ Haux Hun). simpl.
      split; [done|].
      intros (ri & [= <-] & [[k Hk]|[Hpl _]]); exfalso; apply Hun.
      * unfold recognizedTypes. apply elem_of_app. left.
        apply list_elem_of_fmap. by exists (tiTypeOf rawItem, k).
      * rewrite Hpl. unfold recognizedTypes. apply elem_of_app. right.
        by apply list_elem_of_singleton.
Qed.

(** X1. The loop over the track items ends without an error exactly when
    every entry of the scenario reads as an object whose discriminator is
    one of the seven track-item shapes or is that of a place that decodes:
    a track item that does not decode, or whose key is no integer, never
    makes the loop fail. *)
Theorem decodeTrackItems_succeeds_iff self sim rawSim :
  (decodeTrackItems self sim rawSim).2 = None <->
  forall key raw,
    raw_TrackItems rawSim !! key = Some raw -> entryAccepted (key, raw).
Proof.
  unfold decodeTrackItems.
  rewrite (forRange_None_iff (decodeTrackItem self) entryAccepted).
  - rewrite Forall_forall. split.
    + intros Hall key raw Hkey. apply Hall. by apply elem_of_range.
    + intros Hall [key raw] Hin. apply Hall. by apply elem_of_range.
  - intros s x. apply decodeTrackItem_accepts.
Qed.

(** The loop over the track items writes to the two mappings only. *)
Lemma decodeTrackItem_besides self s entry :
  sameBesidesItems s (decodeTrackItem self s entry).1.
Proof.
  destruct entry as [key raw].
  destruct (json_auxItem raw) as [err|rawItem] eqn:Haux.
  { rewrite (decodeTrackItem_unread _ _ _ _ _ Haux). by repeat split. }
  destruct (tiType_cases (tiTypeOf rawItem)) as [[k Hk]|[Hpl|Hun]].
  - rewrite (decodeTrackItem_shape _ _ _ _ _ _ Haux Hk). unfold unmarshalItem.
    destruct (json_TrackItem k raw); [by repeat split|].
    destruct (Atoi (Trim key dq)); by repeat split.
  - rewrite (decodeTrackItem_Place _ _ _ _ _ Haux Hpl).
    destruct (json_Place raw); by repeat split.
  - rewrite (decodeTrackItem_unknown _ _ _ _ _ Haux Hun). by repeat split.
Qed.

Lemma sameBesidesItems_trans s1 s2 s3 :
  sameBesidesItems s1 s2 -> sameBesidesItems s2 s3 -> sameBesidesItems s1 s3.
Proof.
  unfold sameBesidesItems.
  intros (?&?&?&?&?&?&?&?&?&?) (?&?&?&?&?&?&?&?&?&?).
  repeat split; congruence.
Qed.

Lemma decodeTrackItems_besides self sim rawSim :
  sameBesidesItems sim (decodeTrackItems self sim rawSim).1.
Proof.
  unfold decodeTrackItems.
  apply (forRange_preserves (decodeTrackItem self) (sameBesidesItems sim)).
  - intros st entry _ Hst.
    eapply sameBesidesItems_trans; [exact Hst | apply decodeTrackItem_besides].
  - by repeat split.
Qed.

(** The loop over the routes writes to the route mapping only. *)
Lemma decodeRoutes_handles self sim rawSim :
  sameHandles sim (decodeRoutes self sim rawSim).1.1.
Proof.
  unfold decodeRoutes.
  apply (forRange_preserves (decodeRoute self) (fun st => sameHandles sim st.1));
    [|by repeat split].
  intros [s objs] [num route] _ Hst. simpl.
  destruct (Atoi num); exact Hst.
Qed.

(** The steps a decode that returns nil has gone through. *)
Lemma UnmarshalJSON_success self sim data :
  decOutcome (UnmarshalJSON self sim data) = Returned None ->
  exists rawSim sim1 sim2 objs sorted ml,
    json_auxSim data = inr rawSim /\
    decodeTrackItems self sim rawSim = (sim1, None) /\
    checkTrackItemsLinks sim1 = None /\
    decodeRoutes self
      (set_SignalLib (raw_SignalLib rawSim)
         (set_Options (raw_Options rawSim) sim1)) rawSim = ((sim2, objs), None) /\
    let simT :=
      set_Trains (Train_setSimulation self <$> raw_Trains rawSim)
        (set_Services (Service_setSimulation self <$> raw_Services rawSim)
           (set_TrainTypes (TrainType_setSimulation self <$> raw_TrainTypes rawSim)
              sim2)) in
    sort_Slice (trainLess simT) (Trains simT) = Some sorted /\
    raw_MessageLogger rawSim = Some ml /\
    decRoutes (UnmarshalJSON self sim data) = objs /\
    decSim (UnmarshalJSON self sim data) =
      set_MessageLogger (Some (MessageLogger_setSimulation self ml))
        (set_MessageLogger (Some ml) (set_Trains sorted simT)).
Proof.
  unfold UnmarshalJSON.
  destruct (json_auxSim data) as [err|rawSim]; [done|].
  destruct (decodeTrackItems self sim rawSim) as [sim1 [e|]] eqn:Hitems; [done|].
  destruct (checkTrackItemsLinks sim1) as [e|] eqn:Hlinks; [done|].
  cbv zeta.
  destruct (decodeRoutes self _ rawSim) as [[sim2 objs] [e|]] eqn:Hroutes; [done|].
  destruct (sort_Slice _ _) as [sorted|] eqn:Hsort; [|done].
  simpl MessageLogger_.
  destruct (raw_MessageLogger rawSim) as [ml|] eqn:Hml; [|done].
  intros _. exists rawSim, sim1, sim2, objs, sorted, ml.
  repeat split; try done.
Qed.

(** X2. A failed validation of the links is returned as it is, and the decode
    stops there: the error names an item of the track-item mapping that
    violates its rule, the routes of the document are not touched, and
    besides its track items and places the simulation is as before the
    call. *)
Theorem link_failure_aborts self sim data rawSim sim1 e :
  json_auxSim data = inr rawSim ->
  decodeTrackItems self sim rawSim = (sim1, None) ->
  checkTrackItemsLinks sim1 = Some e ->
  decOutcome (UnmarshalJSON self sim data) = Returned (Some e) /\
  (exists id ti pt,
     TrackItems sim1 !! id = Some ti /\ ~ linkRule ti /\
     firstUnresolved ti = Some pt /\ e = ItemNotLinkedAtError ti pt) /\
  decSim (UnmarshalJSON self sim data) = sim1 /\
  sameBesidesItems sim (decSim (UnmarshalJSON self sim data)) /\
  decRoutes (UnmarshalJSON self sim data) = raw_Routes rawSim.
Proof.
  intros Hraw Hitems Hlinks.
  pose proof (decodeTrackItems_besides self sim rawSim) as Hsame.
  rewrite Hitems in Hsame. simpl in Hsame.
  unfold UnmarshalJSON. rewrite Hraw, Hitems, Hlinks. simpl.
  repeat split; try apply Hsame.
  unfold checkTrackItemsLinks in Hlinks.
  apply checkLinksLoop_Some in Hlinks
    as (pre & ti & post & pt & Hsplit & _ & Hbad & Hpt & ->).
  assert (ti ∈ (range (TrackItems sim1)).*2) as Hin.
  { rewrite Hsplit. apply elem_of_app. right. apply list_elem_of_here. }
  apply list_elem_of_fmap in Hin as ([id ti'] & -> & Hin).
  apply elem_of_range in Hin. by exists id, ti', pt.
Qed.

(** X3. After a decode that returns nil every item of the track-item
    mapping satisfies the link rule of its kind. *)
Theorem decoded_items_are_linked self sim data :
  decOutcome (UnmarshalJSON self sim data) = Returned None ->
  forall id ti,
    TrackItems (decSim (UnmarshalJSON self sim data)) !! id = Some ti ->
    linkRule ti.
Proof.
  intros Hok id ti Hti.
  destruct (UnmarshalJSON_success self sim data Hok)
    as (rawSim & sim1 & sim2 & objs & sorted & ml & Hraw & Hitems & Hlinks & _).
  destruct (UnmarshalJSON_mappings self sim data rawSim Hraw) as [Hmap _].
  rewrite Hmap, Hitems in Hti. simpl in Hti.
  unfold checkTrackItemsLinks in Hlinks.
  apply checkLinksLoop_None in Hlinks.
  by apply (proj1 (Forall_range_values linkRule (TrackItems sim1)) Hlinks id).
Qed.

(** X4. Whatever the outcome of the decode, an item of the track-item
    mapping has the kind of the shape its entry declares, which is never the
    place kind. *)
Theorem decoded_item_kinds self sim data rawSim id ti :
  json_auxSim data = inr rawSim ->
  TrackItems (decSim (UnmarshalJSON self sim data)) !! id = Some ti ->
  Type_ ti <> place /\
  exists key raw rawItem,
    raw_TrackItems rawSim !! key = Some raw /\
    json_auxItem raw = inr rawItem /\
    Atoi (Trim key dq) = inr id /\
    (tiTypeOf rawItem, Type_ ti) ∈ trackItemShapes.
Proof.
  intros Hraw Hti.
  destruct (UnmarshalJSON_mappings self sim data rawSim Hraw) as [Hmap _].
  rewrite Hmap in Hti.
  destruct (decodeTrackItems_from self sim rawSim) as [Hfrom _].
  destruct (Hfrom id ti Hti)
    as (key & raw & rawItem & k & dec & Hkey & Haux & Hk & _ & Hid & ->).
  simpl. split.
  - intros ->. unfold trackItemShapes in Hk.
    rewrite !elem_of_cons, elem_of_nil in Hk. intuition discriminate.
  - by exists key, raw, rawItem.
Qed.

(** X5. Whatever the outcome of the decode, a place of the place mapping is
    held at its own place code and is what an entry of the scenario with the
    place discriminator decodes to. *)
Theorem decoded_places_by_code self sim data rawSim code pl :
  json_auxSim data = inr rawSim ->
  Places (decSim (UnmarshalJSON self sim data)) !! code = Some pl ->
  PlaceCode pl = code /\
  exists key raw rawItem,
    raw_TrackItems rawSim !! key = Some raw /\
    json_auxItem raw = inr rawItem /\
    tiTypeOf rawItem = quoted "Place" /\
    json_Place raw = inr pl.
Proof.
  intros Hraw Hpl.
  destruct (UnmarshalJSON_mappings self sim data rawSim Hraw) as [_ Hmap].
  rewrite Hmap in Hpl.
  destruct (decodeTrackItems_from self sim rawSim) as [_ Hfrom].
  exact (Hfrom code pl Hpl).
Qed.

(** X6. A decode never touches the event channel, the stop channel or the
    clock ticker of the simulation, whatever its outcome. *)
Theorem UnmarshalJSON_keeps_handles self sim data :
  sameHandles sim (decSim (UnmarshalJSON self sim data)).
Proof.
  unfold UnmarshalJSON.
  destruct (json_auxSim data) as [err|rawSim]; [by repeat split|].
  pose proof (decodeTrackItems_besides self sim rawSim)
    as (_&_&_&_&_&_&_&He&Hc&Hs).
  destruct (decodeTrackItems self sim rawSim) as [sim1 [e|]];
    [by repeat split|].
  simpl in He, Hc, Hs.
  destruct (checkTrackItemsLinks sim1) as [e|]; [by repeat split|].
  cbv zeta.
  match goal with
  | |- context [decodeRoutes self ?s0 rawSim] =>
      pose proof (decodeRoutes_handles self s0 rawSim) as (He' & Hc' & Hs');
      destruct (decodeRoutes self s0 rawSim) as [[sim2 objs] [e|]]
  end; simpl in He', Hc', Hs'.
  { repeat split; simpl; congruence. }
  destruct (sort_Slice _ _); [|repeat split; simpl; congruence].
  simpl MessageLogger_.
  destruct (raw_MessageLogger rawSim); repeat split; simpl; congruence.
Qed.

(** A property that the turn of one entry establishes and every turn keeps
    holds when the loop is left without an error. *)
Lemma forRange_establishes {S X} (body : S -> X -> S * option error)
  (Q : S -> Prop) x st l :
  x ∈ l ->
  (forall s, (body s x).2 = None -> Q (body s x).1) ->
  (forall s y, Q s -> Q (body s y).1) ->
  (forRange body st l).2 = None ->
  Q (forRange body st l).1.
Proof.
  intros Hin Hx Hkeep. revert st.
  induction l as [|y l IH]; intros st; [by apply elem_of_nil in Hin|].
  simpl. destruct (body st y) as [st' [e|]] eqn:Hy; [done|].
  intros Hnone. apply elem_of_cons in Hin as [->|Hin].
  - apply (forRange_preserves body Q).
    + intros s z _. apply Hkeep.
    + specialize (Hx st). rewrite Hy in Hx. by apply Hx.
  - by apply IH.
Qed.

Lemma decodeTrackItem_keeps_id self s entry id :
  is_Some (TrackItems s !! id) ->
  is_Some (TrackItems (decodeTrackItem self s entry).1 !! id).
Proof.
  intros Hid. destruct entry as [key raw].
  destruct (json_auxItem raw) as [err|rawItem] eqn:Haux.
  { by rewrite (decodeTrackItem_unread _ _ _ _ _ Haux). }
  destruct (tiType_cases (tiTypeOf rawItem)) as [[k Hk]|[Hpl|Hun]].
  - rewrite (decodeTrackItem_shape _ _ _ _ _ _ Haux Hk). unfold unmarshalItem.
    destruct (json_TrackItem k raw); [done|].
    destruct (Atoi (Trim key dq)) as [|id']; [done|]. simpl.
    destruct (decide (id' = id)) as [->|Hne].
    + rewrite lookup_insert_eq. by eexists.
    + by rewrite lookup_insert_ne.
  - rewrite (decodeTrackItem_Place _ _ _ _ _ Haux Hpl).
    by destruct (json_Place raw).
  - by rewrite (decodeTrackItem_unknown _ _ _ _ _ Haux Hun).
Qed.

Lemma decodeTrackItem_keeps_code self s entry code :
  is_Some (Places s !! code) ->
  is_Some (Places (decodeTrackItem self s entry).1 !! code).
Proof.
  intros Hcode. destruct entry as [key raw].
  destruct (json_auxItem raw) as [err|rawItem] eqn:Haux.
  { by rewrite (decodeTrackItem_unread _ _ _ _ _ Haux). }
  destruct (tiType_cases (tiTypeOf rawItem)) as [[k Hk]|[Hpl|Hun]].
  - rewrite (decodeTrackItem_shape _ _ _ _ _ _ Haux Hk). unfold unmarshalItem.
    destruct (json_TrackItem k raw); [done|].
    by destruct (Atoi (Trim key dq)).
  - rewrite (decodeTrackItem_Place _ _ _ _ _ Haux Hpl).
    destruct (json_Place raw) as [|pl]; [done|]. simpl.
    destruct (decide (PlaceCode pl = code)) as [->|Hne].
    + rewrite lookup_insert_eq. by eexists.
    + by rewrite lookup_insert_ne.
  - by rewrite (decodeTrackItem_unknown _ _ _ _ _ Haux Hun).
Qed.

(** X7. When the loop over the track items ends without an error, every
    entry of a track-item shape that decodes and whose key parses to an id
    leaves an item at that id in the track-item mapping of the decode, and
    that item carries the id. *)
Theorem decoded_item_present
  self sim data rawSim key raw rawItem k decoded id :
  json_auxSim data = inr rawSim ->
  (decodeTrackItems self sim rawSim).2 = None ->
  raw_TrackItems rawSim !! key = Some raw ->
  json_auxItem raw = inr rawItem ->
  (tiTypeOf rawItem, k) ∈ trackItemShapes ->
  json_TrackItem k raw = inr decoded ->
  Atoi (Trim key dq) = inr id ->
  exists ti,
    TrackItems (decSim (UnmarshalJSON self sim data)) !! id = Some ti /\
    ID ti = id /\ tiSimulation ti = Some self.
Proof.
  intros Hraw Hnone Hkey Haux Hk Hdec Hid.
  destruct (UnmarshalJSON_mappings self sim data rawSim Hraw) as [Hmap _].
  rewrite Hmap.
  assert (is_Some (TrackItems (decodeTrackItems self sim rawSim).1 !! id))
    as [ti Hti].
  { unfold decodeTrackItems in *.
    apply (forRange_establishes (decodeTrackItem self)
             (fun s => is_Some (TrackItems s !! id)) (key, raw));
      [by apply elem_of_range| |intros s y; apply decodeTrackItem_keeps_id|done].
    intros s _. rewrite (decodeTrackItem_shape _ _ _ _ _ _ Haux Hk).
    unfold unmarshalItem. rewrite Hdec, Hid. simpl.
    rewrite lookup_insert_eq. by eexists. }
  exists ti. split; [done|].
  destruct (decodeTrackItems_from self sim rawSim) as [Hfrom _].
  by destruct (Hfrom id ti Hti) as (?&?&?&?&?&_&_&_&_&_&->).
Qed.

(** X8. When the loop over the track items ends without an error, every
    entry with the place discriminator leaves a place at its place code in
    the place mapping of the decode. *)
Theorem decoded_place_present self sim data rawSim key raw rawItem pl :
  json_auxSim data = inr rawSim ->
  (decodeTrackItems self sim rawSim).2 = None ->
  raw_TrackItems rawSim !! key = Some raw ->
  json_auxItem raw = inr rawItem ->
  tiTypeOf rawItem = quoted "Place" ->
  json_Place raw = inr pl ->
  exists pl',
    Places (decSim (UnmarshalJSON self sim data)) !! PlaceCode pl = Some pl' /\
    PlaceCode pl' = PlaceCode pl.
Proof.
  intros Hraw Hnone Hkey Haux Hty Hdec.
  destruct (UnmarshalJSON_mappings self sim data rawSim Hraw) as [_ Hmap].
  rewrite Hmap.
  assert (is_Some (Places (decodeTrackItems self sim rawSim).1 !! PlaceCode pl))
    as [pl' Hpl'].
  { unfold decodeTrackItems in *.
    apply (forRange_establishes (decodeTrackItem self)
             (fun s => is_Some (Places s !! PlaceCode pl)) (key, raw));
      [by apply elem_of_range| |intros s y; apply decodeTrackItem_keeps_code|done].
    intros s _. rewrite (decodeTrackItem_Place _ _ _ _ _ Haux Hty), Hdec. simpl.
    rewrite lookup_insert_eq. by eexists. }
  exists pl'. split; [done|].
  destruct (decodeTrackItems_from self sim rawSim) as [_ Hfrom].
  by destruct (Hfrom _ _ Hpl') as [? _].
Qed.

(** C7, as amended. The turn of an entry whose discriminator is [Place]
    and which decodes to a place writes that place to the place mapping at
    its own place code, whatever the key of the entry, which is not parsed,
    and leaves the track-item mapping as it is.  Once the loop over the
    entries has ended without an error, the place mapping of the decode holds
    at that code a place with that code that a [Place] entry of the scenario
    decodes to, which is this very place when no other [Place] entry decodes
    to another place of the same code; every place of the mapping is held at
    its own code; and every item of the track-item mapping is what an entry
    of one of the seven track-item shapes, never a [Place] entry, decodes
    to. *)
Theorem place_entries_by_code self sim data rawSim key raw rawItem pl :
  json_auxSim data = inr rawSim ->
  (decodeTrackItems self sim rawSim).2 = None ->
  raw_TrackItems rawSim !! key = Some raw ->
  json_auxItem raw = inr rawItem ->
  tiTypeOf rawItem = quoted "Place" ->
  json_Place raw = inr pl ->
  (forall s key',
     decodeTrackItem self s (key', raw) =
     (set_Places (<[PlaceCode pl := pl]> (Places s)) s, None) /\
     TrackItems (decodeTrackItem self s (key', raw)).1 = TrackItems s) /\
  (exists pl',
     Places (decSim (UnmarshalJSON self sim data)) !! PlaceCode pl = Some pl' /\
     PlaceCode pl' = PlaceCode pl /\
     exists key' raw' rawItem',
       raw_TrackItems rawSim !! key' = Some raw' /\
       json_auxItem raw' = inr rawItem' /\
       tiTypeOf rawItem' = quoted "Place" /\
       json_Place raw' = inr pl') /\
  ((forall key' raw' rawItem' pl',
      raw_TrackItems rawSim !! key' = Some raw' ->
      json_auxItem raw' = inr rawItem' ->
      tiTypeOf rawItem' = quoted "Place" ->
      json_Place raw' = inr pl' ->
      PlaceCode pl' = PlaceCode pl -> pl' = pl) ->
   Places (decSim (UnmarshalJSON self sim data)) !! PlaceCode pl = Some pl) /\
  (forall code p,
     Places (decSim (UnmarshalJSON self sim data)) !! code = Some p ->
     PlaceCode p = code) /\
  (forall id ti,
     TrackItems (decSim (UnmarshalJSON self sim data)) !! id = Some ti ->
     exists key' raw' rawItem' k decoded,
       raw_TrackItems rawSim !! key' = Some raw' /\
       json_auxItem raw' = inr rawItem' /\
       (tiTypeOf rawItem', k) ∈ trackItemShapes /\
       tiTypeOf rawItem' <> quoted "Place" /\
       json_TrackItem k raw' = inr decoded /\
       Atoi (Trim key' dq) = inr id /\
       Type_ ti = k /\ ID ti = id /\ tiSimulation ti = Some self /\
       Origin ti = Origin decoded /\ End_ ti = End_ decoded /\
       Reverse ti = Reverse decoded /\
       PreviousItem ti = PreviousItem decoded /\
       NextItem ti = NextItem decoded /\
       ReverseItem ti = ReverseItem decoded).
Proof.
  intros Hraw Hnone Hkey Haux Hty Hdec.
  destruct (UnmarshalJSON_mappings self sim data rawSim Hraw) as [Hitems Hplaces].
  destruct (decodeTrackItems_from self sim rawSim) as [Hfrom Hpfrom].
  rewrite Hitems, Hplaces.
  assert (forall s key', decodeTrackItem self s (key', raw) =
            (set_Places (<[PlaceCode pl := pl]> (Places s)) s, None)) as Hstep.
  { intros s key'. rewrite (decodeTrackItem_Place _ _ _ _ _ Haux Hty).
    by rewrite Hdec. }
  assert (exists pl',
     Places (decodeTrackItems self sim rawSim).1 !! PlaceCode pl = Some pl' /\
     PlaceCode pl' = PlaceCode pl /\
     exists key' raw' rawItem',
       raw_TrackItems rawSim !! key' = Some raw' /\
       json_auxItem raw' = inr rawItem' /\
       tiTypeOf rawItem' = quoted "Place" /\
       json_Place raw' = inr pl') as Hstored.
  { assert (is_Some (Places (decodeTrackItems self sim rawSim).1 !! PlaceCode pl))
      as [pl' Hpl'].
    { unfold decodeTrackItems in *.
      apply (forRange_establishes (decodeTrackItem self)
               (fun s => is_Some (Places s !! PlaceCode pl)) (key, raw));
        [by apply elem_of_range| |
         intros s y; apply decodeTrackItem_keeps_code|done].
      intros s _. rewrite Hstep. simpl. rewrite lookup_insert_eq. by eexists. }
    exists pl'. split; [done|]. by destruct (Hpfrom _ _ Hpl'). }
  split; [|split; [exact Hstored|split; [|split]]].
  - intros s key'. by rewrite Hstep.
  - intros Huniq.
    destruct Hstored as (pl' & Hpl' & Hcode & key' & raw' & rawItem' & H1' & H2' & H3' & H4').
    by rewrite Hpl', (Huniq key' raw' rawItem' pl' H1' H2' H3' H4' Hcode).
  - intros code p Hp. by destruct (Hpfrom _ _ Hp).
  - intros id ti Hti.
    destruct (Hfrom id ti Hti)
      as (key' & raw' & rawItem' & k & dec & Hk & Ha & Hs & Hd & Hid & ->).
    exists key', raw', rawItem', k, dec. repeat split; try done.
    intros Heq. rewrite Heq in Hs. by apply trackItemShapes_not_Place in Hs.
Qed.

(** ** The loop over the routes *)

Lemma decodeRoute_accepts self st entry :
  (decodeRoute self st entry).2 = None <-> exists n, Atoi entry.1 = inr n.
Proof.
  destruct st as [s objs], entry as [num route]. simpl.
  destruct (Atoi num) as [err|n]; simpl.
  - split; [done | by intros [? ?]].
  - split; [by exists n | done].
Qed.

Lemma decodeRoute_from self m items st entry :
  m !! entry.1 = Some entry.2 ->
  routesFrom self m items st.1 /\ TrackItems st.1 = items ->
  routesFrom self m items (decodeRoute self st entry).1.1 /\
  TrackItems (decodeRoute self st entry).1.1 = items.
Proof.
  destruct st as [s objs], entry as [num route]. simpl.
  intros Hnum [Hfrom Hitems].
  destruct (Atoi num) as [err|n] eqn:Hn; simpl; [done|].
  split; [|done]. intros n' r. simpl.
  destruct (decide (n = n')) as [<-|Hne].
  - rewrite lookup_insert_eq. intros [= <-]. by exists num, route, s.
  - rewrite lookup_insert_ne by done. apply Hfrom.
Qed.

Lemma decodeRoute_keeps_num self st entry n :
  is_Some (Routes st.1 !! n) ->
  is_Some (Routes (decodeRoute self st entry).1.1 !! n).
Proof.
  destruct st as [s objs], entry as [num route]. simpl.
  destruct (Atoi num) as [err|n']; simpl; [done|].
  intros Hn. destruct (decide (n' = n)) as [->|Hne].
  - rewrite lookup_insert_eq. by eexists.
  - by rewrite lookup_insert_ne.
Qed.

Lemma decodeRoutes_besides self sim rawSim :
  SignalLib (decodeRoutes self sim rawSim).1.1 = SignalLib sim /\
  Options (decodeRoutes self sim rawSim).1.1 = Options sim.
Proof.
  unfold decodeRoutes.
  apply (forRange_preserves (decodeRoute self)
           (fun st => SignalLib st.1 = SignalLib sim /\
                      Options st.1 = Options sim)); [|done].
  intros [s objs] [num route] _ Hst. simpl. by destruct (Atoi num).
Qed.

(** X9. After a decode that returns nil, every key of the routes of the
    scenario parses to a number that holds a route in the route mapping, and
    every route of the mapping is a route of the scenario whose key parses to
    its number, given its back-reference and then initialized while the
    simulation held the track items the decode leaves. *)
Theorem decoded_routes self sim data rawSim :
  json_auxSim data = inr rawSim ->
  decOutcome (UnmarshalJSON self sim data) = Returned None ->
  (forall num route, raw_Routes rawSim !! num = Some route ->
     exists n, Atoi num = inr n /\
       is_Some (Routes (decSim (UnmarshalJSON self sim data)) !! n)) /\
  (forall n r, Routes (decSim (UnmarshalJSON self sim data)) !! n = Some r ->
     exists num route s,
       raw_Routes rawSim !! num = Some route /\ Atoi num = inr n /\
       TrackItems s = TrackItems (decSim (UnmarshalJSON self sim data)) /\
       r = Route_initialize s (Route_setSimulation self route)).
Proof.
  intros Hraw Hok.
  destruct (UnmarshalJSON_success self sim data Hok)
    as (rawSim' & sim1 & sim2 & objs & sorted & ml & Hraw' & Hitems & _ &
        Hroutes & _ & _ & _ & Hsim).
  assert (rawSim' = rawSim) as -> by congruence. clear Hraw'.
  rewrite Hsim. simpl Routes. simpl TrackItems.
  set (s0 := set_SignalLib (raw_SignalLib rawSim)
               (set_Options (raw_Options rawSim) sim1)) in *.
  assert (sim2 = (decodeRoutes self s0 rawSim).1.1) as Hsim2 by by rewrite Hroutes.
  assert ((decodeRoutes self s0 rawSim).2 = None) as Hnone by by rewrite Hroutes.
  destruct (decodeRoutes_keeps self s0 rawSim) as [Hkeep _].
  rewrite <- Hsim2 in Hkeep. rewrite Hkeep. rewrite Hsim2.
  unfold decodeRoutes in *. split.
  - intros num route Hnum.
    apply (forRange_None_iff (decodeRoute self)
             (fun en => exists n, Atoi en.1 = inr n)) in Hnone as Hall;
      [|intros s x; apply decodeRoute_accepts].
    rewrite Forall_forall in Hall.
    destruct (Hall (num, route)) as [n Hn]; [by apply elem_of_range|].
    exists n. split; [done|].
    apply (forRange_establishes (decodeRoute self)
             (fun st => is_Some (Routes st.1 !! n)) (num, route));
      [by apply elem_of_range| |intros s y; apply decodeRoute_keeps_num|done].
    intros [s objs'] _. simpl in *. rewrite Hn. simpl.
    rewrite lookup_insert_eq. by eexists.
  - apply (forRange_preserves (decodeRoute self)
             (fun st => routesFrom self (raw_Routes rawSim) (TrackItems s0) st.1 /\
                        TrackItems st.1 = TrackItems s0)).
    + intros st [num route] Hin. apply decodeRoute_from.
      by apply elem_of_range.
    + split; [|done]. intros n r. simpl. by rewrite lookup_empty.
Qed.

(** X10. After a decode that returns nil, the options and the signal
    library are those of the scenario, the train types and the services of
    the scenario are held under their keys with their back-reference set to
    the decoding simulation, and so is its message logger. *)
Theorem decoded_schedules self sim data rawSim :
  json_auxSim data = inr rawSim ->
  decOutcome (UnmarshalJSON self sim data) = Returned None ->
  let final := decSim (UnmarshalJSON self sim data) in
  Options final = raw_Options rawSim /\
  SignalLib final = raw_SignalLib rawSim /\
  (forall k, TrainTypes final !! k =
             TrainType_setSimulation self <$> raw_TrainTypes rawSim !! k) /\
  (forall k, Services final !! k =
             Service_setSimulation self <$> raw_Services rawSim !! k) /\
  (exists ml, raw_MessageLogger rawSim = Some ml /\
     MessageLogger_ final = Some (MessageLogger_setSimulation self ml)).
Proof.
  intros Hraw Hok final. subst final.
  destruct (UnmarshalJSON_success self sim data Hok)
    as (rawSim' & sim1 & sim2 & objs & sorted & ml & Hraw' & Hitems & _ &
        Hroutes & _ & Hml & _ & Hsim).
  assert (rawSim' = rawSim) as -> by congruence. clear Hraw'.
  rewrite Hsim. simpl.
  match type of Hroutes with
  | decodeRoutes self ?s0 rawSim = _ =>
      destruct (decodeRoutes_besides self s0 rawSim) as [Hlib Hopt]
  end.
  rewrite Hroutes in Hlib, Hopt. simpl in Hlib, Hopt.
  split; [done|]. split; [done|].
  split; [intros k; apply lookup_fmap|].
  split; [intros k; apply lookup_fmap|]. by exists ml.
Qed.

(** X11. With a [sort.Slice] that permutes the slice, after a decode that
    returns nil the trains of the simulation are the trains of the scenario
    in some order, each with its back-reference set to the decoding
    simulation. *)
Theorem decoded_trains self sim data rawSim :
  (forall (less : Train -> Train -> option bool) l l',
     sort_Slice less l = Some l' -> l' ≡ₚ l) ->
  json_auxSim data = inr rawSim ->
  decOutcome (UnmarshalJSON self sim data) = Returned None ->
  Trains (decSim (UnmarshalJSON self sim data)) ≡ₚ
    (Train_setSimulation self <$> raw_Trains rawSim) /\
  (forall t, t ∈ Trains (decSim (UnmarshalJSON self sim data)) ->
     trainSimulation t = Some self /\
     exists t0, t0 ∈ raw_Trains rawSim /\ ServiceCode t = ServiceCode t0).
Proof.
  intros Hperm Hraw Hok.
  destruct (UnmarshalJSON_success self sim data Hok)
    as (rawSim' & sim1 & sim2 & objs & sorted & ml & Hraw' & _ & _ &
        _ & Hsort & _ & _ & Hsim).
  assert (rawSim' = rawSim) as -> by congruence. clear Hraw'.
  rewrite Hsim. simpl. apply Hperm in Hsort. simpl in Hsort.
  split; [done|]. intros t Ht. rewrite Hsort in Ht.
  apply list_elem_of_fmap in Ht as (t0 & -> & Ht0). split; [done|].
  by exists t0.
Qed.

(** ** The comparator of the trains *)

Lemma lexLt_irrefl (a : string) : ~ lexLt a a.
Proof. induction a as [|c a IH]; inversion 1; subst; [lia | done]. Qed.

Lemma lexLt_trans (a b c : string) : lexLt a b -> lexLt b c -> lexLt a c.
Proof.
  intros Hab. revert c.
  induction Hab as [x a|x y a b Hxy|x a b Hab IH]; intros c Hbc;
    inversion Hbc; subst.
  - constructor.
  - constructor.
  - apply lexLt_byte. lia.
  - by apply lexLt_byte.
  - by apply lexLt_byte.
  - apply lexLt_tail. by apply IH.
Qed.

Lemma lexLt_total (a b : string) : ~ lexLt a b -> ~ lexLt b a -> a = b.
Proof.
  revert b. induction a as [|x a IH]; intros [|y b] Hab Hba; [done| | |].
  - destruct Hab. constructor.
  - destruct Hba. constructor.
  - destruct (N.lt_trichotomy (N_of_ascii x) (N_of_ascii y)) as [Hlt|[Heq|Hgt]].
    + destruct Hab. by constructor.
    + assert (x = y) as ->.
      { rewrite <- (ascii_N_embedding x), <- (ascii_N_embedding y).
        by rewrite Heq. }
      f_equal. apply IH; intros Hlt; [apply Hab | apply Hba]; by constructor.
    + destruct Hba. by constructor.
Qed.

(** The answer of the comparator as a relation on the trains whose
    services are resolved. *)
Lemma trainLess_true sim a b :
  trainLess sim a b = Some true <->
  exists sa sb,
    Train_Service sim a = Some sa /\ Train_Service sim b = Some sb /\
    match Lines sa, Lines sb with
    | [], [] => lexLt (ServiceCode a) (ServiceCode b)
    | [], _ :: _ => False
    | _ :: _, [] => True
    | la :: _, lb :: _ => ScheduledDepartureTime la < ScheduledDepartureTime lb
    end.
Proof.
  unfold trainLess.
  destruct (Train_Service sim a) as [sa|], (Train_Service sim b) as [sb|];
    try (split; [done | by intros (?&?&?&?&_)]).
  destruct (Lines sa) as [|la ra] eqn:Ha, (Lines sb) as [|lb rb] eqn:Hb; simpl.
  - split.
    + intros [= Hlt]. exists sa, sb. rewrite Ha, Hb. by apply ltb_lexLt in Hlt.
    + intros (sa' & sb' & [= <-] & [= <-] & Hlt). rewrite Ha, Hb in Hlt.
      apply ltb_lexLt in Hlt. by rewrite Hlt.
  - split; [done|]. intros (sa' & sb' & [= <-] & [= <-] & Hlt).
    by rewrite Ha, Hb in Hlt.
  - split; [|done]. intros _. exists sa, sb. by rewrite Ha, Hb.
  - split.
    + intros [= Hlt]. exists sa, sb. rewrite Ha, Hb. by apply Time_Sub_neg in Hlt.
    + intros (sa' & sb' & [= <-] & [= <-] & Hlt). rewrite Ha, Hb in Hlt.
      apply Time_Sub_neg in Hlt. by rewrite Hlt.
Qed.

Lemma trainLess_resolved sim a b sa sb :
  Train_Service sim a = Some sa -> Train_Service sim b = Some sb ->
  trainLess sim a b = Some true \/ trainLess sim a b = Some false.
Proof.
  intros Ha Hb. unfold trainLess. rewrite Ha, Hb.
  match goal with |- Some ?x = _ \/ _ => destruct x end; auto.
Qed.

(** X12. On trains whose services are resolved the comparator is a strict
    weak order: no train comes before itself, two trains never come before
    each other, coming before is transitive, and so is being tied. *)
Theorem trainLess_strict_weak_order sim a b c sa sb sc :
  Train_Service sim a = Some sa ->
  Train_Service sim b = Some sb ->
  Train_Service sim c = Some sc ->
  trainLess sim a a = Some false /\
  (trainLess sim a b = Some true -> trainLess sim b a = Some false) /\
  (trainLess sim a b = Some true -> trainLess sim b c = Some true ->
   trainLess sim a c = Some true) /\
  (trainLess sim a b = Some false -> trainLess sim b a = Some false ->
   trainLess sim b c = Some false -> trainLess sim c b = Some false ->
   trainLess sim a c = Some false /\ trainLess sim c a = Some false).
Proof.
  intros Ha Hb Hc.
  assert (forall x y sx sy, Train_Service sim x = Some sx ->
            Train_Service sim y = Some sy ->
            trainLess sim x y <> Some true -> trainLess sim x y = Some false)
    as Hfalse.
  { intros x y sx sy Hx Hy Hne.
    by destruct (trainLess_resolved sim x y sx sy Hx Hy). }
  assert (forall x y sx sy, Train_Service sim x = Some sx ->
            Train_Service sim y = Some sy ->
            (trainLess sim x y = Some true <->
             match Lines sx, Lines sy with
             | [], [] => lexLt (ServiceCode x) (ServiceCode y)
             | [], _ :: _ => False
             | _ :: _, [] => True
             | lx :: _, ly :: _ =>
                 ScheduledDepartureTime lx < ScheduledDepartureTime ly
             end)) as Htrue.
  { intros x y sx sy Hx Hy. rewrite trainLess_true. split.
    - intros (sx' & sy' & Hx' & Hy' & Hlt). by simplify_eq.
    - intros Hlt. by exists sx, sy. }
  assert (forall x y sx sy, Train_Service sim x = Some sx ->
            Train_Service sim y = Some sy ->
            (trainLess sim x y = Some false <->
             ~ match Lines sx, Lines sy with
               | [], [] => lexLt (ServiceCode x) (ServiceCode y)
               | [], _ :: _ => False
               | _ :: _, [] => True
               | lx :: _, ly :: _ =>
                   ScheduledDepartureTime lx < ScheduledDepartureTime ly
               end)) as Hfalse'.
  { intros x y sx sy Hx Hy. rewrite <- (Htrue x y sx sy Hx Hy). split.
    - intros -> [=].
    - by apply Hfalse with sx sy. }
  rewrite (Hfalse' a a sa sa Ha Ha), (Hfalse' b a sb sa Hb Ha),
    (Hfalse' a b sa sb Ha Hb), (Hfalse' b c sb sc Hb Hc),
    (Hfalse' c b sc sb Hc Hb), (Hfalse' a c sa sc Ha Hc),
    (Hfalse' c a sc sa Hc Ha),
    (Htrue a b sa sb Ha Hb), (Htrue b c sb sc Hb Hc), (Htrue a c sa sc Ha Hc).
  unfold Time in *.
  clear Hfalse Htrue Hfalse'.
  destruct (Lines sa) as [|la ra], (Lines sb) as [|lb rb], (Lines sc) as [|lc rc];
    (split; [|split; [|split]]);
    try tauto; try lia; try (intros; split; lia);
    try (by apply lexLt_irrefl);
    try (intros Hab Hba; exact (lexLt_irrefl _ (lexLt_trans _ _ _ Hab Hba)));
    try (intros Hab Hbc; exact (lexLt_trans _ _ _ Hab Hbc));
    try (intros Hab Hba Hbc Hcb;
         rewrite (lexLt_total _ _ Hab Hba), (lexLt_total _ _ Hbc Hcb);
         split; apply lexLt_irrefl).
Qed.

(** ** The clock *)

Lemma run_tick w t rest :
  clockTicker (wSim w) = Some t ->
  run (tickReceived :: rest) w = run rest (onTick w).
Proof. intros Ht. simpl. by rewrite Ht. Qed.

Lemma run_ticks_app n rest w t :
  clockTicker (wSim w) = Some t ->
  run (repeat tickReceived n ++ rest) w = run rest (Nat.iter n onTick w).
Proof.
  revert w. induction n as [|n IH]; intros w Ht; [done|].
  change (repeat tickReceived (S n) ++ rest)
    with (tickReceived :: (repeat tickReceived n ++ rest)).
  rewrite (run_tick w t _ Ht), IH by done.
  by rewrite Nat.iter_succ_r.
Qed.

Lemma tickEvents_objects t n :
  Object <$> tickEvents t n =
  (fun i => t + Z.of_nat (S i) * timeStep) <$> seq 0 n.
Proof.
  revert t. induction n as [|n IH]; intros t; [done|].
  cbn [tickEvents seq]. rewrite !fmap_cons.
  f_equal; try (simpl; unfold Time in *; lia).
  rewrite IH, <- fmap_S_seq, <- list_fmap_compose.
  apply list_fmap_ext. intros _ i _. simpl. unfold Time in *. lia.
Qed.

Lemma iter_onTick n w :
  CurrentTime (Options (wSim (Nat.iter n onTick w))) =
    CurrentTime (Options (wSim w)) + Z.of_nat n * timeStep /\
  sending (Nat.iter n onTick w) =
    sending w ++ tickEvents (CurrentTime (Options (wSim w))) n /\
  clockTicker (wSim (Nat.iter n onTick w)) = clockTicker (wSim w) /\
  logger (Nat.iter n onTick w) = logger w /\
  loops (Nat.iter n onTick w) = loops w /\
  sameBesidesClock (wSim w) (wSim (Nat.iter n onTick w)).
Proof.
  revert w. induction n as [|n IH]; intros w.
  - simpl. rewrite app_nil_r. repeat split. unfold Time in *. lia.
  - rewrite Nat.iter_succ_r.
    destruct (IH (onTick w)) as (Htime & Hsend & Hticker & Hlog & Hloops & Hsame).
    rewrite Htime, Hsend, Hticker, Hlog, Hloops. simpl.
    unfold Time_Add. rewrite <- app_assoc. simpl.
    split; [unfold Time in *; lia|]. split; [done|].
    split; [done|]. split; [done|]. split; [done|].
    destruct Hsame as (?&?&?&?&?&?&?&?&?&?&?). by repeat split.
Qed.

(** X13. With the message logger of the simulation and the package logger
    present, [Initialize] returns nil, adds its notice as the last message,
    allocates the two channels and starts no clock; [Start] then returns
    without a panic, with a running ticker of 500 milliseconds, one more
    loop launched and its line in the log, and leaves the current time and
    the events being sent as they were. *)
Theorem Initialize_then_Start sim ml w lines :
  MessageLogger_ sim = Some ml ->
  wSim w = (Initialize sim).1 ->
  logger w = Some lines ->
  (Initialize sim).2 = Returned None /\
  MessageLogger_ (Initialize sim).1 =
    Some (MessageLogger_addMessage "Simulation initializing" softwareMsg ml) /\
  EventChan (Initialize sim).1 = Some mkChan /\
  stopChan (Initialize sim).1 = Some mkChan /\
  clockTicker (Initialize sim).1 = clockTicker sim /\
  Options (Initialize sim).1 = Options sim /\
  (Start w).2 = Normal /\
  clockTicker (wSim (Start w).1) =
    Some {| tickerPeriod := 500 * Millisecond; tickerRunning := true |} /\
  loops (Start w).1 = S (loops w) /\
  logger (Start w).1 = Some (lines ++ ["Simulation started"%string]) /\
  sending (Start w).1 = sending w /\
  Options (wSim (Start w).1) = Options sim.
Proof.
  intros Hml Hw Hlog. unfold Initialize in *. rewrite Hml in *. simpl in *.
  unfold Start, logger_Info. rewrite Hw. simpl. rewrite Hlog. simpl.
  by repeat split.
Qed.

(** X14. While the ticker is allocated, [n] ticks in a row advance the
    current time by [n] steps and hand over [n] clock events, which carry, in
    order, the times reached after each tick; the loop then waits, with the
    ticker and the log as they were. *)
Theorem run_ticks n w t :
  clockTicker (wSim w) = Some t ->
  (run (repeat tickReceived n) w).2 = LoopWaiting /\
  CurrentTime (Options (wSim (run (repeat tickReceived n) w).1)) =
    CurrentTime (Options (wSim w)) + Z.of_nat n * timeStep /\
  (Object <$> sending (run (repeat tickReceived n) w).1) =
    (Object <$> sending w) ++
    ((fun i => CurrentTime (Options (wSim w)) + Z.of_nat (S i) * timeStep)
       <$> seq 0 n) /\
  clockTicker (wSim (run (repeat tickReceived n) w).1) = Some t /\
  logger (run (repeat tickReceived n) w).1 = logger w.
Proof.
  intros Ht.
  pose proof (run_ticks_app n [] w t Ht) as Hrun. rewrite app_nil_r in Hrun.
  destruct (iter_onTick n w) as (Htime & Hsend & Hticker & Hlog & _).
  rewrite Hrun. simpl. rewrite Hticker, Ht. simpl.
  rewrite Htime, Hsend, Hticker, Hlog, fmap_app, tickEvents_objects.
  by repeat split.
Qed.

(** X15. A value on the stop channel ends the loop: with the ticker
    allocated and the package logger present, after [n] ticks and a stop the
    loop has returned, the signals that follow the stop change nothing, the
    current time has advanced by exactly [n] steps with [n] events handed
    over, the ticker is stopped and the log holds the pause line. *)
Theorem run_stops n rest w t lines :
  clockTicker (wSim w) = Some t ->
  logger w = Some lines ->
  run (repeat tickReceived n ++ stopReceived :: rest) w =
    run (repeat tickReceived n ++ [stopReceived]) w /\
  (run (repeat tickReceived n ++ stopReceived :: rest) w).2 = LoopReturned /\
  CurrentTime
    (Options (wSim (run (repeat tickReceived n ++ stopReceived :: rest) w).1)) =
    CurrentTime (Options (wSim w)) + Z.of_nat n * timeStep /\
  length (sending (run (repeat tickReceived n ++ stopReceived :: rest) w).1) =
    (length (sending w) + n)%nat /\
  clockTicker (wSim (run (repeat tickReceived n ++ stopReceived :: rest) w).1) =
    Some (Ticker_Stop t) /\
  logger (run (repeat tickReceived n ++ stopReceived :: rest) w).1 =
    Some (lines ++ ["Simulation paused"%string]).
Proof.
  intros Ht Hlog.
  rewrite !(run_ticks_app n _ w t Ht).
  destruct (iter_onTick n w) as (Htime & Hsend & Hticker & Hlog' & _).
  simpl. rewrite Hticker, Ht. unfold logger_Info. simpl.
  rewrite Hlog', Hlog. simpl. rewrite Htime, Hsend, length_app.
  repeat split. f_equal.
  clear. generalize (CurrentTime (Options (wSim w))).
  induction n as [|n IH]; intros t0; simpl; [done|]. by rewrite IH.
Qed.

Lemma sameBesidesClock_trans s1 s2 s3 :
  sameBesidesClock s1 s2 -> sameBesidesClock s2 s3 -> sameBesidesClock s1 s3.
Proof.
  unfold sameBesidesClock.
  intros (?&?&?&?&?&?&?&?&?&?&?) (?&?&?&?&?&?&?&?&?&?&?).
  repeat split; congruence.
Qed.

(** X16. Whatever its [select] takes, [run] leaves the simulation as it is
    but for the current time and the ticker: the track items, places,
    routes, schedules, message logger and channels are untouched, the
    current time never goes back, the events already handed over stay, in
    order, at the head of those being sent, and no loop is launched. *)
Theorem run_keeps sigs w :
  sameBesidesClock (wSim w) (wSim (run sigs w).1) /\
  CurrentTime (Options (wSim w)) <=
    CurrentTime (Options (wSim (run sigs w).1)) /\
  sending w `prefix_of` sending (run sigs w).1 /\
  loops (run sigs w).1 = loops w.
Proof.
  revert w. induction sigs as [|sig sigs IH]; intros w; simpl.
  - destruct (clockTicker (wSim w)); simpl; by repeat split.
  - destruct (clockTicker (wSim w)) as [t|] eqn:Ht; [|by repeat split].
    destruct sig.
    + unfold logger_Info. simpl.
      destruct (logger w); simpl; by repeat split.
    + destruct (IH (onTick w)) as (Hsame & Htime & Hsend & Hloops).
      split; [|split; [|split]].
      * eapply sameBesidesClock_trans; [|exact Hsame]. by repeat split.
      * etrans; [|exact Htime]. simpl. unfold Time_Add, timeStep, Millisecond.
        unfold Time in *. lia.
      * etrans; [|exact Hsend]. simpl. by apply prefix_app_r.
      * by rewrite Hloops.
Qed.

End MoreProperties.

Section Orders.
Context `{Ent : Entities}.

(** X18. Whether the validation of the links passes does not depend on the
    order in which the runtime visits the track items: under two runtimes
    it returns nil for the same simulations (the item an error names may
    differ). *)
Theorem checkTrackItemsLinks_verdict (R1 R2 : GoRuntime) (sim : Simulation) :
  @checkTrackItemsLinks Ent R1 sim = None <->
  @checkTrackItemsLinks Ent R2 sim = None.
Proof.
  unfold checkTrackItemsLinks.
  rewrite !checkLinksLoop_None.
  by rewrite (@Forall_range_values R1), (@Forall_range_values R2).
Qed.

End Orders.

(** * The further properties on the small instance *)

Lemma insertBy_perm {A} (less : A -> A -> option bool) x l l' :
  insertBy less x l = Some l' -> l' ≡ₚ x :: l.
Proof.
  revert l'. induction l as [|y l IH]; intros l'; simpl.
  - by intros [= <-].
  - destruct (less x y) as [[|]|]; [by intros [= <-]| |done].
    destruct (insertBy less x l) as [r|]; [|done].
    intros [= <-]. rewrite (IH r eq_refl). apply Permutation_swap.
Qed.

Lemma sortBy_perm {A} (less : A -> A -> option bool) l l' :
  sortBy less l = Some l' -> l' ≡ₚ l.
Proof.
  revert l'. induction l as [|x l IH]; intros l'; simpl.
  - by intros [= <-].
  - destruct (sortBy less l) as [r|]; [|done].
    intros Hins. apply insertBy_perm in Hins. by rewrite Hins, (IH r eq_refl).
Qed.

Section MoreExamples.
#[local] Existing Instance demoEntities.
#[local] Existing Instance demoRouteMethods.
#[local] Existing Instance demoJson2.
#[local] Existing Instance demoRuntime.

(** The line item under key 3 has no next item: the decode returns the
    link error at its end point and leaves the routes alone. *)
Lemma link_failure_aborts_witness :
  let ti := TrackItem_setID 3
              (TrackItem_setSimulation 1%nat (demoZeroItem lineItem)) in
  decOutcome (demoDecode2 (demoDocument itemsUnlinked [])) =
    Returned (Some (ItemNotLinkedAtError ti (End_ ti))) /\
  Routes (decSim (demoDecode2 (demoDocument itemsUnlinked []))) =
    Routes demoZeroSim.
Proof.
  intros ti.
  destruct (link_failure_aborts 1%nat demoZeroSim
              (demoDocument itemsUnlinked []) (demoRaw itemsUnlinked [])
              (decodeTrackItems 1%nat demoZeroSim (demoRaw itemsUnlinked [])).1
              (ItemNotLinkedAtError ti (End_ ti)))
    as (Hout & _ & _ & (_ & _ & Hroutes & _) & _);
    try (vm_compute; reflexivity).
  split; [exact Hout | exact Hroutes].
Defined.

Lemma decoded_items_are_linked_witness :
  decOutcome (demoDecode2 scheduleJson) = Returned None /\
  forall id ti,
    TrackItems (decSim (demoDecode2 scheduleJson)) !! id = Some ti ->
    linkRule ti.
Proof.
  assert (decOutcome (demoDecode2 scheduleJson) = Returned None) as Hok
    by (vm_compute; reflexivity).
  split; [exact Hok|].
  exact (decoded_items_are_linked 1%nat demoZeroSim scheduleJson Hok).
Defined.

Lemma decoded_item_kinds_witness :
  exists ti,
    TrackItems (decSim (demoDecode2 scheduleJson)) !! 6 = Some ti /\
    Type_ ti = textItem /\ Type_ ti <> place.
Proof.
  destruct (TrackItems (decSim (demoDecode2 scheduleJson)) !! 6)
    as [ti|] eqn:Hti; [|vm_compute in Hti; discriminate Hti].
  exists ti. split; [reflexivity|].
  destruct (decoded_item_kinds 1%nat demoZeroSim scheduleJson scheduleRaw 6 ti)
    as [Hkind _]; [vm_compute; reflexivity | exact Hti |].
  split; [|exact Hkind].
  vm_compute in Hti. injection Hti as <-. reflexivity.
Defined.

Lemma decoded_places_by_code_witness :
  exists pl,
    Places (decSim (demoDecode2 (demoDocument itemsPlace ["1"%string])))
      !! "STN"%string = Some pl /\
    PlaceCode pl = "STN"%string.
Proof.
  destruct (Places (decSim (demoDecode2 (demoDocument itemsPlace ["1"%string])))
              !! "STN"%string) as [pl|] eqn:Hpl;
    [|vm_compute in Hpl; discriminate Hpl].
  exists pl. split; [reflexivity|].
  destruct (decoded_places_by_code 1%nat demoZeroSim
              (demoDocument itemsPlace ["1"%string])
              (demoRaw itemsPlace ["1"%string]) "STN" pl)
    as [Hcode _]; [vm_compute; reflexivity | exact Hpl | exact Hcode].
Defined.

Lemma decoded_item_present_witness :
  exists ti,
    TrackItems (decSim (demoDecode2 (demoDocument itemsPlace ["1"%string])))
      !! 6 = Some ti /\
    ID ti = 6 /\ tiSimulation ti = Some 1%nat.
Proof.
  apply (decoded_item_present 1%nat demoZeroSim
           (demoDocument itemsPlace ["1"%string])
           (demoRaw itemsPlace ["1"%string])
           "6" textItemJson {[ "__type__"%string := quoted "TextItem" ]}
           textItem (demoZeroItem textItem));
    try (vm_compute; reflexivity).
  apply (bool_decide_unpack _). vm_compute. exact I.
Defined.

Lemma decoded_place_present_witness :
  exists pl',
    Places (decSim (demoDecode2 (demoDocument itemsPlace ["1"%string])))
      !! "STN"%string = Some pl' /\
    PlaceCode pl' = "STN"%string.
Proof.
  apply (decoded_place_present 1%nat demoZeroSim
           (demoDocument itemsPlace ["1"%string])
           (demoRaw itemsPlace ["1"%string])
           "5" placeJson
           (<[ "__type__"%string := quoted "Place" ]>
              (<[ "placeCode"%string := quoted "STN" ]>
                 {[ "name"%string := quoted "Station" ]}))
           {| PlaceCode := "STN"; PlaceName := "Station" |});
    vm_compute; reflexivity.
Defined.

Lemma decoded_routes_witness :
  decOutcome (demoDecode2 scheduleJson) = Returned None /\
  (exists n, Atoi "1" = inr n /\
     is_Some (Routes (decSim (demoDecode2 scheduleJson)) !! n)) /\
  (forall n r, Routes (decSim (demoDecode2 scheduleJson)) !! n = Some r ->
     exists num, is_Some (raw_Routes scheduleRaw !! num) /\ Atoi num = inr n).
Proof.
  assert (decOutcome (demoDecode2 scheduleJson) = Returned None) as Hok
    by (vm_compute; reflexivity).
  destruct (decoded_routes 1%nat demoZeroSim scheduleJson scheduleRaw)
    as [Hall Hfrom]; [vm_compute; reflexivity | exact Hok |].
  split; [exact Hok|]. split.
  - apply (Hall "1"%string demoZeroRoute). vm_compute. reflexivity.
  - intros n r Hr. destruct (Hfrom n r Hr) as (num & route & s & Hnum & Hn & _).
    exists num. split; [by exists route | exact Hn].
Defined.

Lemma decoded_schedules_witness :
  decOutcome (demoDecode2 scheduleJson) = Returned None /\
  TrainTypes (decSim (demoDecode2 scheduleJson)) !! "UT"%string =
    Some {| ttSimulation := Some 1%nat; ttDescription := "unit" |} /\
  Services (decSim (demoDecode2 scheduleJson)) !! "ICE1"%string =
    Some {| svcSimulation := Some 1%nat; Lines := [] |}.
Proof.
  assert (decOutcome (demoDecode2 scheduleJson) = Returned None) as Hok
    by (vm_compute; reflexivity).
  destruct (decoded_schedules 1%nat demoZeroSim scheduleJson scheduleRaw)
    as (_ & _ & Htt & Hsvc & _); [vm_compute; reflexivity | exact Hok |].
  split; [exact Hok|]. unfold demoDecode2. split.
  - rewrite (Htt "UT"%string). vm_compute. reflexivity.
  - rewrite (Hsvc "ICE1"%string). vm_compute. reflexivity.
Defined.

Lemma decoded_trains_witness :
  decOutcome (demoDecode2 scheduleJson) = Returned None /\
  Trains (decSim (demoDecode2 scheduleJson)) ≡ₚ
    [ {| trainSimulation := Some 1%nat; ServiceCode := "ICE1" |};
      {| trainSimulation := Some 1%nat; ServiceCode := "REG1" |} ].
Proof.
  assert (decOutcome (demoDecode2 scheduleJson) = Returned None) as Hok
    by (vm_compute; reflexivity).
  split; [exact Hok|].
  refine (proj1 (decoded_trains 1%nat demoZeroSim scheduleJson scheduleRaw
                   _ _ Hok)).
  - intros less l l'. apply sortBy_perm.
  - vm_compute. reflexivity.
Defined.

Lemma trainLess_strict_weak_order_witness :
  trainLess demoTrainsSim (demoTrain "ICE1") (demoTrain "ICE2") = Some true /\
  trainLess demoTrainsSim (demoTrain "ICE2") (demoTrain "ICE1") = Some false /\
  trainLess demoTrainsSim (demoTrain "ICE1") (demoTrain "ICE1") = Some false.
Proof.
  assert (trainLess demoTrainsSim (demoTrain "ICE1") (demoTrain "ICE2") = Some true)
    as Hlt by (vm_compute; reflexivity).
  destruct (trainLess_strict_weak_order demoTrainsSim
              (demoTrain "ICE1") (demoTrain "ICE2") (demoTrain "REG1")
              {| svcSimulation := Some 1%nat; Lines := [] |}
              {| svcSimulation := Some 1%nat; Lines := [] |}
              {| svcSimulation := Some 1%nat;
                 Lines := [ {| ScheduledDepartureTime := 8 * hour |};
                            {| ScheduledDepartureTime := 9 * hour |} ] |})
    as (Hirr & Hasym & _); try (vm_compute; reflexivity).
  split; [exact Hlt|]. split; [exact (Hasym Hlt) | exact Hirr].
Defined.

Lemma Initialize_then_Start_witness :
  let sim := set_MessageLogger
               (Some {| mlSimulation := Some 1%nat; Messages := [] |})
               demoZeroSim in
  let w := {| wSim := (Initialize sim).1; logger := Some [];
              loops := 0; sending := [] |} in
  (Initialize sim).2 = Returned None /\
  (Start w).2 = Normal /\
  loops (Start w).1 = 1%nat /\
  logger (Start w).1 = Some ["Simulation started"%string].
Proof.
  intros sim w.
  destruct (Initialize_then_Start sim
              {| mlSimulation := Some 1%nat; Messages := [] |} w [])
    as (Hinit & _ & _ & _ & _ & _ & Hstart & _ & Hloops & Hlog & _);
    try reflexivity.
  split; [exact Hinit|]. split; [exact Hstart|].
  split; [exact Hloops | exact Hlog].
Defined.

Lemma run_ticks_witness :
  let w := (Start (demoWorld (Some []))).1 in
  (run (repeat tickReceived 2) w).2 = LoopWaiting /\
  CurrentTime (Options (wSim (run (repeat tickReceived 2) w).1)) =
    CurrentTime (Options (wSim w)) + 2 * timeStep /\
  (Object <$> sending (run (repeat tickReceived 2) w).1) =
    [500000000; 1000000000].
Proof.
  intros w.
  destruct (run_ticks 2 w (NewTicker timeStep))
    as (Hend & Htime & Hobj & _); [reflexivity|].
  split; [exact Hend|]. split; [exact Htime|].
  rewrite Hobj. vm_compute. reflexivity.
Defined.

Lemma run_stops_witness :
  let w := (Start (demoWorld (Some []))).1 in
  let r := run [tickReceived; stopReceived; tickReceived; tickReceived] w in
  r.2 = LoopReturned /\
  CurrentTime (Options (wSim r.1)) = CurrentTime (Options (wSim w)) + 1 * timeStep /\
  length (sending r.1) = 1%nat.
Proof.
  intros w r.
  destruct (run_stops 1 [tickReceived; tickReceived] w (NewTicker timeStep)
              ["Simulation started"%string])
    as (_ & Hend & Htime & Hlen & _); try reflexivity.
  split; [exact Hend|]. split; [exact Htime | exact Hlen].
Defined.

End MoreExamples.

(** * Scenarios with two entries that compete *)

Section RevisedExamples.
#[local] Existing Instance demoEntities.
#[local] Existing Instance demoRouteMethods.
#[local] Existing Instance demoJson3.
#[local] Existing Instance demoRuntime.

(** The text item under key 5 is visited first and decodes; the entry under
    key 1 has the discriminator [Foo]. *)
Lemma unknown_type_aborts_witness :
  (quoted "Foo" ∉ recognizedTypes) /\
  range (raw_TrackItems (demoRaw itemsTextAndFoo [])) =
    [("5"%string, textItemJson); ("1"%string, fooItemJson)] /\
  decOutcome (demoDecode3 (demoDocument itemsTextAndFoo [])) =
    Returned (Some (ErrUnknownType (quoted "Foo"))).
Proof.
  assert (quoted "Foo" ∉ recognizedTypes) as Hty
    by (apply (bool_decide_unpack _); vm_compute; exact I).
  assert (range (raw_TrackItems (demoRaw itemsTextAndFoo [])) =
          [("5"%string, textItemJson); ("1"%string, fooItemJson)]) as Hrange
    by (vm_compute; reflexivity).
  split; [exact Hty|]. split; [exact Hrange|].
  refine (proj2 (proj2 (unknown_type_aborts 1%nat demoZeroSim
            (demoDocument itemsTextAndFoo []) (demoRaw itemsTextAndFoo [])
            "1" fooItemJson {[ "__type__"%string := quoted "Foo" ]} (quoted "Foo")
            _ _ _ _ Hty)) [("5"%string, textItemJson)] [] Hrange _);
    try (vm_compute; reflexivity).
  constructor; [|constructor]. intros s. reflexivity.
Defined.

(** The text item under key 5 is visited first and decodes; the entry under
    key 1 has a name and no discriminator. *)
Lemma missing_type_aborts_witness :
  range (raw_TrackItems (demoRaw itemsTextAndUntyped [])) =
    [("5"%string, textItemJson); ("1"%string, untypedItemJson)] /\
  decodeTrackItem 1%nat demoZeroSim ("1"%string, untypedItemJson) =
    (demoZeroSim, Some (ErrUnknownType EmptyString)) /\
  decOutcome (demoDecode3 (demoDocument itemsTextAndUntyped [])) =
    Returned (Some (ErrUnknownType EmptyString)).
Proof.
  assert (range (raw_TrackItems (demoRaw itemsTextAndUntyped [])) =
          [("5"%string, textItemJson); ("1"%string, untypedItemJson)]) as Hrange
    by (vm_compute; reflexivity).
  split; [exact Hrange|].
  pose proof (missing_type_aborts 1%nat demoZeroSim
                (demoDocument itemsTextAndUntyped [])
                (demoRaw itemsTextAndUntyped [])
                "1" untypedItemJson {[ "name"%string := quoted "siding" ]}) as Hm.
  destruct Hm as (Hstep & _ & Hall); try (vm_compute; reflexivity).
  split; [apply Hstep|].
  apply (Hall [("5"%string, textItemJson)] [] Hrange).
  constructor; [|constructor]. intros s. reflexivity.
Defined.

(** C4, as stated, fails: the entry under key 1 has the discriminator
    [Foo], which is not recognized, and the entry under key 5, a number, is
    visited first; the decode returns the error of that entry, which is no
    unknown-type error. *)
Lemma unknown_type_not_returned :
  raw_TrackItems (demoRaw itemsFooAndNumber []) !! "1"%string = Some fooItemJson /\
  json_auxItem fooItemJson = inr {[ "__type__"%string := quoted "Foo" ]} /\
  (quoted "Foo" ∉ recognizedTypes) /\
  (range (raw_TrackItems (demoRaw itemsFooAndNumber []))).*1 =
    ["5"; "1"]%string /\
  (exists err,
     decOutcome (demoDecode3 (demoDocument itemsFooAndNumber [])) =
       Returned (Some (ErrReadTrackItem numberJson err))) /\
  decOutcome (demoDecode3 (demoDocument itemsFooAndNumber [])) <>
    Returned (Some (ErrUnknownType (quoted "Foo"))).
Proof.
  split; [by vm_compute|]. split; [by vm_compute|].
  split; [apply (bool_decide_unpack _); by vm_compute|].
  split; [by vm_compute|]. split; [eexists; by vm_compute|].
  vm_compute. discriminate.
Qed.

(** C9, as stated, fails: the entry under key 1 has no discriminator, and
    the entry under key 5, a number, is visited first; the decode returns
    the error of that entry, which is no unknown-type error. *)
Lemma missing_type_not_returned :
  raw_TrackItems (demoRaw itemsUntypedAndNumber []) !! "1"%string =
    Some untypedItemJson /\
  json_auxItem untypedItemJson = inr {[ "name"%string := quoted "siding" ]} /\
  ({[ "name"%string := quoted "siding" ]} : gmap string string)
    !! "__type__"%string = None /\
  (range (raw_TrackItems (demoRaw itemsUntypedAndNumber []))).*1 =
    ["5"; "1"]%string /\
  (exists err,
     decOutcome (demoDecode3 (demoDocument itemsUntypedAndNumber [])) =
       Returned (Some (ErrReadTrackItem numberJson err))) /\
  (forall raw,
     decOutcome (demoDecode3 (demoDocument itemsUntypedAndNumber [])) <>
       Returned (Some (ErrUnknownType raw))).
Proof.
  split; [by vm_compute|]. split; [by vm_compute|]. split; [by vm_compute|].
  split; [by vm_compute|]. split; [eexists; by vm_compute|].
  intros raw. vm_compute. discriminate.
Qed.

(** C7, as stated, fails: the entries under the keys 5 and 8 both have the
    discriminator [Place] and decode to two places of code [STN]; the decode
    returns nil and its place mapping holds the second one only, so the first
    entry is stored nowhere. *)
Lemma place_entry_not_stored :
  raw_TrackItems (demoRaw itemsTwoPlaces []) !! "5"%string = Some placeJson /\
  (exists rawItem, json_auxItem placeJson = inr rawItem /\
                   tiTypeOf rawItem = quoted "Place") /\
  json_Place placeJson = inr {| PlaceCode := "STN"; PlaceName := "Station" |} /\
  raw_TrackItems (demoRaw itemsTwoPlaces []) !! "8"%string = Some placeJson2 /\
  (exists rawItem, json_auxItem placeJson2 = inr rawItem /\
                   tiTypeOf rawItem = quoted "Place") /\
  json_Place placeJson2 = inr {| PlaceCode := "STN"; PlaceName := "Depot" |} /\
  decOutcome (demoDecode3 (demoDocument itemsTwoPlaces [])) = Returned None /\
  Places (decSim (demoDecode3 (demoDocument itemsTwoPlaces []))) =
    {[ "STN"%string := {| PlaceCode := "STN"; PlaceName := "Depot" |} ]} /\
  (forall code,
     Places (decSim (demoDecode3 (demoDocument itemsTwoPlaces []))) !! code <>
     Some {| PlaceCode := "STN"; PlaceName := "Station" |}).
Proof.
  assert (Places (decSim (demoDecode3 (demoDocument itemsTwoPlaces []))) =
          {[ "STN"%string := {| PlaceCode := "STN"; PlaceName := "Depot" |} ]})
    as Hplaces by by vm_compute.
  split; [by vm_compute|]. split; [eexists; split; by vm_compute|].
  split; [by vm_compute|]. split; [by vm_compute|].
  split; [eexists; split; by vm_compute|].
  split; [by vm_compute|]. split; [by vm_compute|]. split; [exact Hplaces|].
  intros code. rewrite Hplaces.
  destruct (decide (code = "STN"%string)) as [->|Hne].
  - rewrite lookup_singleton_eq. discriminate.
  - by rewrite lookup_singleton_ne.
Qed.

(** The place under key 5 of a scenario that holds no other place. *)
Lemma place_entries_by_code_witness :
  (decodeTrackItems 1%nat demoZeroSim (demoRaw itemsPlace ["1"%string])).2 = None /\
  Places (decSim (demoDecode3 (demoDocument itemsPlace ["1"%string])))
    !! "STN"%string = Some {| PlaceCode := "STN"; PlaceName := "Station" |} /\
  Places (decSim (demoDecode3 (demoDocument itemsPlace ["1"%string])))
    !! "5"%string = None /\
  (forall id ti,
     TrackItems (decSim (demoDecode3 (demoDocument itemsPlace ["1"%string])))
       !! id = Some ti -> Type_ ti <> place).
Proof.
  assert ((decodeTrackItems 1%nat demoZeroSim
             (demoRaw itemsPlace ["1"%string])).2 = None) as Hnone
    by (vm_compute; reflexivity).
  assert (json_auxSim (demoDocument itemsPlace ["1"%string]) =
          inr (demoRaw itemsPlace ["1"%string])) as Hraw
    by (vm_compute; reflexivity).
  destruct (place_entries_by_code 1%nat demoZeroSim
              (demoDocument itemsPlace ["1"%string])
              (demoRaw itemsPlace ["1"%string]) "5" placeJson
              (<[ "__type__"%string := quoted "Place" ]>
                 (<[ "placeCode"%string := quoted "STN" ]>
                    {[ "name"%string := quoted "Station" ]}))
              {| PlaceCode := "STN"; PlaceName := "Station" |} Hraw Hnone)
    as (_ & (pl' & Hpl' & _) & _ & Hcodes & Hitems);
    try (vm_compute; reflexivity).
  split; [exact Hnone|]. split; [by vm_compute|]. split; [by vm_compute|].
  intros id ti Hti.
  destruct (Hitems id ti Hti) as (?&?&?&k&?&_&_&Hshape&_&_&_&Hk&_).
  rewrite Hk. intros ->. unfold trackItemShapes in Hshape.
  rewrite !elem_of_cons, elem_of_nil in Hshape. intuition discriminate.
Defined.

End RevisedExamples.
